(** * spellingbeesolver.cpp: the word filter of the Spelling Bee solver

    A shallow embedding of [src/spellingbeesolver.cpp].  A [char] is an
    [ascii], a [std::string] is a [string], the hive
    [std::unordered_set<char>] is a [gset ascii], the result
    [std::vector<std::string>] is a [list string] that grows at its end.
    Streams are records that are passed in and handed back, as the C++
    functions take them by reference. *)

From Stdlib Require Import Ascii DecimalString.
From Equations Require Import Equations.
From Equations.Prop Require Import Logic.
From stdpp Require Import base decidable list strings gmap.

(** ** The C and C++ library functions the program calls *)

Module Cxx.

(** [islower] and [toupper] of <cctype> in the "C" locale, the locale
    in force because the program never calls [setlocale]: only the 26
    letters a..z are lower case, and [toupper] moves them down by 32 and
    leaves every other character, the bytes above 127 too, as it is.
    The program calls [toupper] only; [islower] says which words are
    lower case. *)
Definition islower (c : ascii) : bool :=
  let n := Ascii.N_of_ascii c in (97 <=? n)%N && (n <=? 122)%N.

Definition toupper (c : ascii) : ascii :=
  if islower c then Ascii.ascii_of_N (Ascii.N_of_ascii c - 32) else c.

(** [s[i]] of [std::string]: the character at [i], and the terminating
    null character at [i = s.length()]. *)
Definition at_index (s : string) (i : nat) : ascii :=
  default Ascii.zero (String.get i s).

(** [s.find(ch)]: the index of the first [ch], [None] for [npos]. *)
Fixpoint find (s : string) (ch : ascii) : option nat :=
  match s with
  | EmptyString => None
  | String c s' => if decide (c = ch) then Some 0 else S <$> find s' ch
  end.

(** [letters.count(ch)] of [std::unordered_set]: 1 or 0. *)
Definition count (letters : gset ascii) (ch : ascii) : nat :=
  if decide (ch ∈ letters) then 1 else 0.

(** The characters of a string, front to back. *)
Definition chars (s : string) : list ascii := String.list_ascii_of_string s.

End Cxx.

(** ** isValidWord *)

Definition kMinWordLength : nat := 4.

(** The range-for loop of [isValidWord], leaving at the first character
    that is not in the hive. *)
Fixpoint all_in_letters (word : string) (letters : gset ascii) : bool :=
  match word with
  | EmptyString => true
  | String ch rest =>
      if Nat.eqb (Cxx.count letters ch) 0 then false
      else all_in_letters rest letters
  end.

Definition isValidWord (word : string) (letters : gset ascii)
    (middle : ascii) : bool :=
  if String.length word <? kMinWordLength then false
  else if bool_decide (Cxx.find word middle = None) then false
  else all_in_letters word letters.

(** ** Files and streams *)

(** What a path names: a regular file with its bytes, or something the
    process can neither read nor write (a directory, a file without
    permission).  A path the map does not hold names nothing yet. *)
Inductive node : Type :=
| RegularFile (data : string)
| Unavailable.

Definition newline : ascii := "010"%char.

(** The state of a [std::istream] that this program looks at: the error
    bits [eofbit] and [failbit], and the characters not yet extracted.
    Read errors of the device ([badbit]) are not modelled. *)
Record istream : Type := mk_istream {
  eofbit : bool;
  failbit : bool;
  unread : string
}.

Definition good (ins : istream) : bool := negb (eofbit ins || failbit ins).

(** [std::ifstream dictionary(filename)]: a stream on the bytes of the
    file, or a stream with [failbit] set when the file cannot be
    opened. *)
Definition ifstream_open (fs : gmap string node) (filename : string)
    : istream :=
  match fs !! filename with
  | Some (RegularFile data) => mk_istream false false data
  | _ => mk_istream false true ""
  end.

(** The characters before the first newline of [input], and what
    follows that newline; [None] when the input ends first. *)
Fixpoint extract_line (input : string) : string * option string :=
  match input with
  | EmptyString => ("", None)
  | String c input' =>
      if decide (c = newline) then ("", Some input')
      else let '(line, after) := extract_line input' in (String c line, after)
  end.

(** [std::getline(ins, str)].  A stream that is not [good] only gets
    [failbit] and [str] is left alone.  Otherwise [str] is erased and
    filled up to the delimiter, which is extracted and dropped; reaching
    the end of the input sets [eofbit]; extracting nothing at all sets
    [failbit].  (The [max_size] limit of [str] is out of reach.) *)
Definition getline (ins : istream) (str : string) : istream * string :=
  if good ins then
    match extract_line (unread ins) with
    | (line, Some after) => (mk_istream false false after, line)
    | (line, None) =>
        (mk_istream true (bool_decide (unread ins = "")) "", line)
    end
  else (mk_istream (eofbit ins) true (unread ins), str).

Lemma extract_line_length (input line after : string) :
  extract_line input = (line, Some after) →
  String.length input = S (String.length line + String.length after).
Proof.
  revert line. induction input as [|c s IH]; intros line; simpl; [done|].
  case_decide.
  - intros [= <- <-]. done.
  - destruct (extract_line s) as [l a] eqn:E. intros [= <- ->].
    simpl. by rewrite (IH l).
Qed.

(** A call of [getline] that leaves the stream usable has consumed
    input: this is what ends the reading loops. *)
Lemma getline_consumes (ins ins' : istream) (str str' : string) :
  getline ins str = (ins', str') → failbit ins' = false →
  String.length (unread ins') < String.length (unread ins).
Proof.
  unfold getline. destruct (good ins); [|by intros [= <- _]].
  destruct (extract_line (unread ins)) as [line [after|]] eqn:E.
  - intros [= <- _] _. apply extract_line_length in E. simpl. lia.
  - intros [= <- _]. simpl. case_bool_decide; [done|]. intros _.
    destruct (unread ins); [done | simpl; lia].
Qed.

(** ** solveSpellingBee *)

(** The [while (std::getline(dictionary, word))] loop: the condition is
    the stream converted to [bool], that is [!fail()]. *)
Equations? scan (letters : gset ascii) (middle : ascii)
    (dictionary : istream) (word : string) (result : list string)
    : istream * list string
    by wf (String.length (unread dictionary)) lt :=
  scan letters middle dictionary word result
    with inspect (getline dictionary word) := {
    | exist _ (dictionary', word') Hread
        with inspect (failbit dictionary') := {
        | exist _ true _ => (dictionary', result);
        | exist _ false Hok =>
            scan letters middle dictionary' word'
              (if isValidWord word' letters middle
               then result ++ [word'] else result) } }.
Proof. eapply getline_consumes; eauto. Qed.

(** What [solveSpellingBee] leaves behind: the two arguments it takes by
    reference and the [size_t] it returns.  A vector's size is below
    its [max_size], so the count never wraps and is kept as a [nat]. *)
Record solved : Type := mk_solved {
  dictionary_after : istream;
  result_after : list string;
  returned : nat
}.

Definition solveSpellingBee (letters : gset ascii) (middle : ascii)
    (dictionary : istream) (result : list string) : solved :=
  let '(dictionary', result') := scan letters middle dictionary "" result in
  mk_solved dictionary' result' (length result').

(** ** getLettersFromUser *)

(** One turn of the [for] loop: [letters.insert(toupper(input[i]))]. *)
Definition insert_upper (input : string) (letters : gset ascii) (i : nat)
    : gset ascii :=
  {[ Cxx.toupper (Cxx.at_index input i) ]} ∪ letters.

(** What [getLettersFromUser] leaves behind: [std::cin], the hive it
    fills in, and the middle character it returns; [input_line] keeps
    the local [input] so that properties can speak of the line read.
    The prompt written to [std::cout] is not modelled. *)
Record entered : Type := mk_entered {
  cin_after : istream;
  input_line : string;
  letters_after : gset ascii;
  middle_returned : ascii
}.

Definition getLettersFromUser (cin : istream) (letters : gset ascii)
    : entered :=
  let '(cin', input) := getline cin "" in
  let letters' :=
    foldl (insert_upper input) letters (seq 0 (String.length input)) in
  mk_entered cin' input letters' (Cxx.toupper (Cxx.at_index input 0)).

(** ** writeResultToFile *)

(** The state of a [std::ofstream]: [failbit] and the characters sent
    so far.  Write errors of the device are not modelled. *)
Record ofstream : Type := mk_ofstream {
  out_failbit : bool;
  sent : string
}.

(** [std::ofstream out(filename)]: the file is created or truncated,
    or [failbit] is set when it cannot be opened. *)
Definition ofstream_open (fs : gmap string node) (filename : string)
    : ofstream :=
  match fs !! filename with
  | Some Unavailable => mk_ofstream true ""
  | _ => mk_ofstream false ""
  end.

(** [out << word << std::endl]: nothing is inserted into a failed
    stream. *)
Definition put_line (out : ofstream) (word : string) : ofstream :=
  if out_failbit out then out
  else mk_ofstream false (sent out +:+ word +:+ String newline "").

(** The destructor of [out]: the characters sent are the file. *)
Definition ofstream_close (fs : gmap string node) (filename : string)
    (out : ofstream) : gmap string node :=
  if out_failbit out then fs else <[filename := RegularFile (sent out)]> fs.

Definition writeResultToFile (fs : gmap string node) (filename : string)
    (result : list string) : gmap string node :=
  let out := ofstream_open fs filename in
  let out := foldl put_line out result in
  ofstream_close fs filename out.

(** ** Reading a text line by line *)

(** The reader of the round trip, which the program itself does not
    have: the loop of [solveSpellingBee] that keeps every line. *)
Equations? readLines (source : istream) (line : string)
    (lines : list string) : istream * list string
    by wf (String.length (unread source)) lt :=
  readLines source line lines with inspect (getline source line) := {
    | exist _ (source', line') Hread with inspect (failbit source') := {
        | exist _ true _ => (source', lines);
        | exist _ false Hok => readLines source' line' (lines ++ [line']) } }.
Proof. eapply getline_consumes; eauto. Qed.

(** The lines of a text: the runs of characters between newlines.  The
    last line need not end in a newline, and a newline at the very end
    does not start one more line. *)
Fixpoint lines_of (text : string) : list string :=
  match text with
  | EmptyString => []
  | String c text' =>
      if decide (c = newline) then "" :: lines_of text'
      else match lines_of text' with
           | [] => [String c ""]
           | line :: more => String c line :: more
           end
  end.

(** The lines a stream still has to give. *)
Definition remaining_lines (ins : istream) : list string :=
  if good ins then lines_of (unread ins) else [].

(** The accepted words of a run of lines, in the order of the lines. *)
Definition accepted (letters : gset ascii) (middle : ascii)
    (lines : list string) : list string :=
  List.filter (λ word, isValidWord word letters middle) lines.

(** A text file with the given lines, each ended by a newline. *)
Definition unlines (lines : list string) : string :=
  foldr (λ line text, line +:+ String newline text) "" lines.

(** ** fileExists *)

Definition fileExists (fs : gmap string node) (filename : string) : bool :=
  negb (failbit (ifstream_open fs filename)).

(** ** The loop of solveSpellingBee as a relation *)

(** [scans letters middle d w r d' r']: started with the stream [d], the
    line buffer [w] and the vector [r], the [while] loop ends with the
    stream [d'] and the vector [r'].  One rule leaves the loop, the
    other goes once through its body. *)
Inductive scans (letters : gset ascii) (middle : ascii)
    : istream → string → list string → istream → list string → Prop :=
| scans_exit dictionary word result dictionary' word' :
    getline dictionary word = (dictionary', word') →
    failbit dictionary' = true →
    scans letters middle dictionary word result dictionary' result
| scans_body dictionary word result dictionary' word' dictionary'' result'' :
    getline dictionary word = (dictionary', word') →
    failbit dictionary' = false →
    scans letters middle dictionary' word'
      (if isValidWord word' letters middle then result ++ [word'] else result)
      dictionary'' result'' →
    scans letters middle dictionary word result dictionary'' result''.

(** A call of [solveSpellingBee] that ends with [out]. *)
Definition runs_to (letters : gset ascii) (middle : ascii)
    (dictionary : istream) (result : list string) (out : solved) : Prop :=
  scans letters middle dictionary "" result
    (dictionary_after out) (result_after out) ∧
  returned out = length (result_after out).

(** ** Sample data *)

(** The hive and the word list of the example of the specification,
    the same word list in upper case, and a small hive, dictionary and
    disk to run the functions on. *)
Definition example_hive : gset ascii :=
  {[ "A"; "B"; "L"; "N"; "O"; "T"; "Y" ]}%char.

Definition example_words : list string :=
  ["ant"; "baton"; "balloon"; "tybalt"; "xyz"].

Definition example_words_upper : list string :=
  ["ANT"; "BATON"; "BALLOON"; "TYBALT"; "XYZ"].

Definition small_hive : gset ascii := {[ "N"; "O" ]}%char.

Definition small_dictionary : istream :=
  mk_istream false false (unlines ["NOON"; "ANT"]).

(** [std::cin] with the letters of the example typed in, middle first. *)
Definition keyboard : istream :=
  mk_istream false false (unlines ["nabloty"; "y"; "found.txt"]).

Definition small_disk : gmap string node :=
  {[ "words.txt" := RegularFile (unlines ["NOON"; "ANT"]) ]}.

(** The same letters typed in upper case. *)
Definition keyboard_shouting : istream :=
  mk_istream false false (unlines ["NABLOTY"]).

(** A disk on which the path "found" cannot be opened. *)
Definition locked_disk : gmap string node :=
  {[ "words.txt" := RegularFile (unlines ["NOON"; "ANT"]);
     "found" := Unavailable ]}.

(** ** getDictionaryNameFromUser *)

Definition DEFAULT_DICT : string := "dictionary.txt".

(** The double quote, for the messages that quote a file name. *)
Definition dquote : string := String "034"%char "".

Definition endl : string := String newline "".

Definition dictionary_prompt : string :=
  "Enter the filename of the dictionary you want to use (hit enter for "
  +:+ dquote +:+ "dictionary.txt" +:+ dquote +:+ "): ".

Definition retry_message (dictionaryFilename : string) : string :=
  "File " +:+ dquote +:+ dictionaryFilename +:+ dquote
  +:+ " does not exist. Please try again: ".

(** What [getDictionaryNameFromUser] leaves behind: [std::cin],
    [std::cout] (the characters written so far) and the name returned. *)
Record named : Type := mk_named {
  cin_after_name : istream;
  cout_after_name : string;
  name_returned : string
}.

(** The [while] loop that asks again.  Nothing in the source bounds the
    number of turns, so the model counts them down from [fuel] and gives
    [None] when the loop is still running after [fuel] turns. *)
Fixpoint reprompt (fuel : nat) (fs : gmap string node) (cin : istream)
    (cout : string) (dictionaryFilename : string)
    : option (istream * string * string) :=
  if bool_decide (dictionaryFilename ≠ "")
     && negb (fileExists fs dictionaryFilename)
  then
    match fuel with
    | 0 => None
    | S fuel' =>
        let cout' := cout +:+ retry_message dictionaryFilename in
        let '(cin', dictionaryFilename') := getline cin dictionaryFilename in
        reprompt fuel' fs cin' cout' dictionaryFilename'
    end
  else Some (cin, cout, dictionaryFilename).

Definition getDictionaryNameFromUser (fuel : nat) (fs : gmap string node)
    (cin : istream) (cout : string) : option named :=
  let cout := cout +:+ dictionary_prompt in
  let '(cin, dictionaryFilename) := getline cin "" in
  match reprompt fuel fs cin cout dictionaryFilename with
  | None => None
  | Some (cin, cout, dictionaryFilename) =>
      Some (mk_named cin cout
              (if bool_decide (dictionaryFilename ≠ "")
               then dictionaryFilename else DEFAULT_DICT))
  end.

(** The name the loop settles on when the user types the lines [lines]:
    the first line that is empty or names a file that opens, and the
    default name when that line is empty or there is no such line. *)
Fixpoint name_chosen (fs : gmap string node) (lines : list string)
    : string :=
  match lines with
  | [] => DEFAULT_DICT
  | line :: more =>
      if bool_decide (line = "") then DEFAULT_DICT
      else if fileExists fs line then line
      else name_chosen fs more
  end.

(** A name worth asking again for: not empty, and no file opens under
    it. *)
Definition refused (fs : gmap string node) (name : string) : Prop :=
  name ≠ "" ∧ fileExists fs name = false.

(** ** main *)

(** [tolower] of <cctype> in the "C" locale. *)
Definition tolower (c : ascii) : ascii :=
  let n := Ascii.N_of_ascii c in
  if (65 <=? n)%N && (n <=? 90)%N then Ascii.ascii_of_N (n + 32) else c.

(** [std::cout << n] for a [size_t]: the decimal digits. *)
Definition put_size_t (n : nat) : string :=
  NilEmpty.string_of_uint (Nat.to_uint n).

(** [!line.empty() && tolower(line[0]) == 'y'] *)
Definition says_yes (line : string) : bool :=
  negb (bool_decide (line = ""))
  && bool_decide (tolower (Cxx.at_index line 0) = "y"%char).

Definition letters_prompt : string :=
  "Enter each letter starting with the middle letter: ".

Definition found_message : string :=
  " words found! Would you like to save them to a file? (y/n): ".

(** One turn of the printing loop: [std::cout << word << std::endl]. *)
Definition print_line (cout : string) (word : string) : string :=
  cout +:+ word +:+ endl.

(** The hive and the words found when the letters line is [typed] and
    the dictionary has the lines [lines]. *)
Definition hive_typed (typed : string) : gset ascii :=
  list_to_set (Cxx.toupper <$> Cxx.chars typed).

Definition found_with (typed : string) (lines : list string) : list string :=
  accepted (hive_typed typed) (Cxx.toupper (Cxx.at_index typed 0)) lines.

(** What the process works on: the files, [std::cin] and the characters
    written to [std::cout]. *)
Record world : Type := mk_world {
  disk_of : gmap string node;
  stdin_of : istream;
  stdout_of : string
}.

(** [main], with the turns allowed to the loop of
    [getDictionaryNameFromUser]: the world it leaves and the value it
    returns. *)
Definition main (fuel : nat) (w : world) : option (world * Z) :=
  match getDictionaryNameFromUser fuel (disk_of w) (stdin_of w) (stdout_of w)
  with
  | None => None
  | Some chosen =>
      let dictionary := ifstream_open (disk_of w) (name_returned chosen) in
      let cout := cout_after_name chosen +:+ letters_prompt in
      let typed := getLettersFromUser (cin_after_name chosen) ∅ in
      let out :=
        solveSpellingBee (letters_after typed) (middle_returned typed)
          dictionary [] in
      let cout := cout +:+ put_size_t (returned out) +:+ found_message in
      let '(cin, line) := getline (cin_after typed) "" in
      if says_yes line then
        let cout := cout +:+ "Enter the output filename: " in
        let '(cin, line) := getline cin line in
        let fs := writeResultToFile (disk_of w) line (result_after out) in
        Some (mk_world fs cin (cout +:+ "Have a nice day!" +:+ endl), 0%Z)
      else
        let cout := cout +:+ "Would you like to print them out? (y/n): " in
        let '(cin, line) := getline cin line in
        let cout :=
          if says_yes line then foldl print_line cout (result_after out)
          else cout +:+ "Alright, goodbye!" +:+ endl in
        Some (mk_world (disk_of w) cin (cout +:+ "Have a nice day!" +:+ endl),
              0%Z)
  end.

(** ** Facts about the library functions *)

Lemma find_None_iff (s : string) (ch : ascii) :
  Cxx.find s ch = None ↔ ch ∉ Cxx.chars s.
Proof.
  induction s as [|c s IH]; simpl.
  - split; [intros _; apply not_elem_of_nil | done].
  - rewrite not_elem_of_cons. destruct (decide (c = ch)) as [->|Hne].
    + split; [done | intros [? _]; done].
    + rewrite fmap_None, IH. split; [intros ?; split; congruence | tauto].
Qed.

Lemma all_in_letters_iff (word : string) (letters : gset ascii) :
  all_in_letters word letters = true ↔
  ∀ ch, ch ∈ Cxx.chars word → ch ∈ letters.
Proof.
  induction word as [|c s IH]; simpl.
  - split; [intros _ ch Hch; by apply elem_of_nil in Hch | done].
  - unfold Cxx.count. destruct (decide (c ∈ letters)) as [Hin|Hnin]; simpl.
    + rewrite IH. split.
      * intros H ch [->|Hch]%elem_of_cons; auto.
      * intros H ch Hch. apply H, elem_of_cons. by right.
    + split; [done | intros H]. exfalso. apply Hnin, H, elem_of_cons. by left.
Qed.

(** C1.  [isValidWord] is false on every word shorter than four
    characters; on a word of four or more characters it is true exactly
    when the middle letter occurs in the word and every character of
    the word is in the hive. *)
Theorem isValidWord_spec (w : string) (L : gset ascii) (m : ascii) :
  (String.length w < 4 → isValidWord w L m = false) ∧
  (4 ≤ String.length w →
     (isValidWord w L m = true ↔
      m ∈ Cxx.chars w ∧ ∀ ch, ch ∈ Cxx.chars w → ch ∈ L)).
Proof.
  unfold isValidWord, kMinWordLength. split; intros Hlen.
  - apply Nat.ltb_lt in Hlen. by rewrite Hlen.
  - assert ((String.length w <? 4) = false) as -> by (apply Nat.ltb_ge; lia).
    rewrite <- all_in_letters_iff. case_bool_decide as Hfind.
    + apply find_None_iff in Hfind. split; [done | tauto].
    + split; [intros H; split; [|done] | tauto].
      destruct (decide (m ∈ Cxx.chars w)) as [|Hn]; [done|].
      by apply find_None_iff in Hn.
Qed.

Lemma isValidWord_spec_witness :
  (String.length "ANT" < 4 ∧ isValidWord "ANT" example_hive "N" = false) ∧
  (4 ≤ String.length "BATON" ∧
   (isValidWord "BATON" example_hive "N" = true ↔
    "N"%char ∈ Cxx.chars "BATON" ∧
    ∀ ch, ch ∈ Cxx.chars "BATON" → ch ∈ example_hive)).
Proof.
  split.
  - split; [simpl; lia |].
    apply (isValidWord_spec "ANT" example_hive "N"). simpl. lia.
  - split; [simpl; lia |].
    apply (isValidWord_spec "BATON" example_hive "N"). simpl. lia.
Defined.

(** ** Lines and [getline] *)

Lemma lines_of_extract_more (text line after : string) :
  extract_line text = (line, Some after) →
  lines_of text = line :: lines_of after.
Proof.
  revert line. induction text as [|c s IH]; intros line; simpl; [done|].
  case_decide.
  - by intros [= <- <-].
  - destruct (extract_line s) as [l a] eqn:E. intros [= <- ->].
    by rewrite (IH l).
Qed.

Lemma lines_of_extract_last (text line : string) :
  extract_line text = (line, None) → text ≠ "" → lines_of text = [line].
Proof.
  revert line. induction text as [|c s IH]; intros line; simpl; [done|].
  case_decide; [done|].
  destruct (extract_line s) as [l a] eqn:E. intros [= <- ->] _.
  destruct s as [|c' s']; [by injection E as <-|].
  by rewrite (IH l).
Qed.

(** [getline] fails exactly when no line remains, and otherwise hands
    out the first remaining line and keeps the others. *)
Lemma getline_remaining (ins : istream) (str : string) :
  match remaining_lines ins with
  | [] => failbit (getline ins str).1 = true
  | line :: more =>
      failbit (getline ins str).1 = false ∧
      (getline ins str).2 = line ∧
      remaining_lines (getline ins str).1 = more
  end.
Proof.
  unfold remaining_lines, getline. destruct (good ins); [|done].
  destruct (extract_line (unread ins)) as [line [after|]] eqn:E.
  - rewrite (lines_of_extract_more _ _ _ E). done.
  - destruct (decide (unread ins = "")) as [Hnil|Hnil].
    + by rewrite Hnil.
    + rewrite (lines_of_extract_last _ _ E Hnil). simpl.
      by rewrite bool_decide_eq_false_2.
Qed.

Lemma scan_result (letters : gset ascii) (middle : ascii)
    (dictionary : istream) (word : string) (result : list string) :
  (scan letters middle dictionary word result).2 =
  result ++ accepted letters middle (remaining_lines dictionary).
Proof.
  funelim (scan letters middle dictionary word result).
  - pose proof (getline_remaining dictionary word) as G.
    rewrite Hread in G. simpl in G.
    destruct (remaining_lines dictionary) as [|l ls].
    + by rewrite app_nil_r.
    + destruct G as [G _]. congruence.
  - pose proof (getline_remaining dictionary word) as G.
    rewrite Hread in G. simpl in G.
    destruct (remaining_lines dictionary) as [|l ls]; [congruence|].
    destruct G as (_ & -> & Hmore).
    match goal with IH : (scan _ _ _ _ _).2 = _ |- _ => rewrite IH end.
    rewrite Hmore.
    unfold accepted. simpl. destruct (isValidWord l letters middle).
    + by rewrite <- app_assoc.
    + done.
Qed.

Lemma scan_scans (letters : gset ascii) (middle : ascii)
    (dictionary : istream) (word : string) (result : list string) :
  scans letters middle dictionary word result
    (scan letters middle dictionary word result).1
    (scan letters middle dictionary word result).2.
Proof.
  funelim (scan letters middle dictionary word result).
  - eapply scans_exit; eauto.
  - eapply scans_body; eauto.
Qed.

Lemma solveSpellingBee_runs (letters : gset ascii) (middle : ascii)
    (dictionary : istream) (result : list string) :
  runs_to letters middle dictionary result
    (solveSpellingBee letters middle dictionary result).
Proof.
  unfold runs_to, solveSpellingBee.
  pose proof (scan_scans letters middle dictionary "" result) as H.
  by destruct (scan letters middle dictionary "" result).
Qed.

(** Two reads of one stream state give the same stream and line. *)
Ltac same_read :=
  match goal with
  | H1 : getline ?d ?w = _, H2 : getline ?d ?w = _ |- _ =>
      rewrite H1 in H2; injection H2 as <- <-
  end.

Lemma scans_functional (letters : gset ascii) (middle : ascii)
    (d : istream) (w : string) (r : list string)
    (d1 d2 : istream) (r1 r2 : list string) :
  scans letters middle d w r d1 r1 → scans letters middle d w r d2 r2 →
  d1 = d2 ∧ r1 = r2.
Proof.
  intros H1. revert d2 r2.
  induction H1 as [d w r d' w' Hget Hfail
                  |d w r d' w' d'' r'' Hget Hok _ IH]; intros d2 r2 H2.
  - inversion H2; subst; same_read; [done | congruence].
  - inversion H2; subst; same_read; [congruence | by apply IH].
Qed.

Lemma solveSpellingBee_result (letters : gset ascii) (middle : ascii)
    (dictionary : istream) (result : list string) :
  result_after (solveSpellingBee letters middle dictionary result) =
  result ++ accepted letters middle (remaining_lines dictionary).
Proof.
  unfold solveSpellingBee.
  pose proof (scan_result letters middle dictionary "" result) as H.
  by destruct (scan letters middle dictionary "" result).
Qed.

Lemma solveSpellingBee_returned (letters : gset ascii) (middle : ascii)
    (dictionary : istream) (result : list string) :
  returned (solveSpellingBee letters middle dictionary result) =
  length (result_after (solveSpellingBee letters middle dictionary result)).
Proof.
  unfold solveSpellingBee.
  by destruct (scan letters middle dictionary "" result).
Qed.

(** ** Texts made of lines *)

Lemma string_app_assoc (s t u : string) : (s +:+ t) +:+ u = s +:+ t +:+ u.
Proof.
  induction s as [|c s IH]; [reflexivity|].
  change (String c ((s +:+ t) +:+ u) = String c (s +:+ t +:+ u)).
  by rewrite IH.
Qed.

Lemma chars_cons (c : ascii) (s : string) :
  Cxx.chars (String c s) = c :: Cxx.chars s.
Proof. reflexivity. Qed.

Lemma lines_of_line (line text : string) :
  newline ∉ Cxx.chars line →
  lines_of (line +:+ String newline text) = line :: lines_of text.
Proof.
  induction line as [|c s IH]; intros Hnl.
  - change (lines_of (String newline text) = "" :: lines_of text).
    reflexivity.
  - rewrite chars_cons, not_elem_of_cons in Hnl. destruct Hnl as [Hc Hs].
    change (lines_of (String c (s +:+ String newline text)) =
            String c s :: lines_of text).
    simpl. rewrite decide_False by done. by rewrite (IH Hs).
Qed.

Lemma lines_of_unlines (lines : list string) :
  Forall (λ line, newline ∉ Cxx.chars line) lines →
  lines_of (unlines lines) = lines.
Proof.
  induction 1 as [|line lines Hline _ IH]; [done|].
  simpl. rewrite lines_of_line by done. by rewrite IH.
Qed.

(** ** The scan and the lines of the dictionary *)

(** C2.  The vector that [solveSpellingBee] fills, starting empty, is
    the lines of the dictionary that [isValidWord] accepts, in the order
    of the lines: nothing is dropped as a duplicate and nothing is
    reordered.  The count returned is its length.  The lines are those
    the stream still has to give; for a dictionary file made of the
    lines [lines], each ended by a newline, they are [lines]. *)
Theorem solveSpellingBee_filters_in_order (L : gset ascii) (m : ascii)
    (dictionary : istream) :
  let out := solveSpellingBee L m dictionary [] in
  result_after out =
    List.filter (λ w, isValidWord w L m) (remaining_lines dictionary) ∧
  returned out = length (result_after out) ∧
  ∀ lines : list string,
    Forall (λ line, newline ∉ Cxx.chars line) lines →
    dictionary = mk_istream false false (unlines lines) →
    result_after out = List.filter (λ w, isValidWord w L m) lines.
Proof.
  split; [apply solveSpellingBee_result |].
  split; [apply solveSpellingBee_returned |].
  intros lines Hlines ->. rewrite solveSpellingBee_result. simpl.
  unfold remaining_lines. simpl. by rewrite lines_of_unlines.
Qed.

Lemma solveSpellingBee_filters_in_order_witness :
  Forall (λ line, newline ∉ Cxx.chars line) ["NOON"; "ANT"; "NOON"] ∧
  result_after
    (solveSpellingBee small_hive "N"
       (mk_istream false false (unlines ["NOON"; "ANT"; "NOON"])) []) =
    ["NOON"; "NOON"].
Proof.
  assert (Forall (λ line, newline ∉ Cxx.chars line) ["NOON"; "ANT"; "NOON"])
    as Hlines by (repeat constructor; by apply find_None_iff).
  split; [exact Hlines |].
  destruct (solveSpellingBee_filters_in_order small_hive "N"
              (mk_istream false false (unlines ["NOON"; "ANT"; "NOON"])))
    as (_ & _ & Hfile).
  rewrite (Hfile ["NOON"; "ANT"; "NOON"] Hlines eq_refl).
  vm_compute. reflexivity.
Defined.

(** C10.  Whatever the vector holds at the call, [solveSpellingBee]
    only appends the accepted words to it and returns the length of the
    whole vector; that count is the number of accepted words exactly
    when the vector was empty at the call. *)
Theorem solveSpellingBee_appends (L : gset ascii) (m : ascii)
    (dictionary : istream) (result : list string) :
  let out := solveSpellingBee L m dictionary result in
  let added := accepted L m (remaining_lines dictionary) in
  result_after out = result ++ added ∧
  returned out = length result + length added ∧
  (returned out = length added ↔ result = []).
Proof.
  intros out added.
  assert (result_after out = result ++ added) as Hres
    by apply solveSpellingBee_result.
  assert (returned out = length result + length added) as Hret.
  { unfold out. by rewrite solveSpellingBee_returned,
      solveSpellingBee_result, length_app. }
  repeat split; [done | done | |].
  - intros Heq. apply length_zero_iff_nil. lia.
  - intros ->. by rewrite Hret.
Qed.

(** C7.  Two runs of the scan from the same dictionary, hive, middle
    letter and vector end with the same vector, element by element, and
    return the same count. *)
Theorem scan_twice_same_result (L : gset ascii) (m : ascii)
    (dictionary : istream) (result : list string) (out1 out2 : solved) :
  runs_to L m dictionary result out1 →
  runs_to L m dictionary result out2 →
  result_after out1 = result_after out2 ∧ returned out1 = returned out2.
Proof.
  intros [Hrun1 Hret1] [Hrun2 Hret2].
  destruct (scans_functional _ _ _ _ _ _ _ _ _ Hrun1 Hrun2) as [_ Hres].
  split; [done | congruence].
Qed.

Lemma scan_twice_same_result_witness :
  (runs_to small_hive "N" small_dictionary []
     (solveSpellingBee small_hive "N" small_dictionary []) ∧
   runs_to small_hive "N" small_dictionary []
     (mk_solved (mk_istream true true "") ["NOON"] 1)) ∧
  result_after (solveSpellingBee small_hive "N" small_dictionary []) =
    ["NOON"] ∧
  returned (solveSpellingBee small_hive "N" small_dictionary []) = 1.
Proof.
  assert (runs_to small_hive "N" small_dictionary []
            (mk_solved (mk_istream true true "") ["NOON"] 1)) as Hrun.
  { split; [|reflexivity].
    eapply scans_body; [reflexivity | reflexivity |].
    eapply scans_body; [reflexivity | reflexivity |].
    eapply scans_exit; reflexivity. }
  split; [split; [apply solveSpellingBee_runs | exact Hrun] |].
  exact (scan_twice_same_result small_hive "N" small_dictionary [] _ _
           (solveSpellingBee_runs _ _ _ _) Hrun).
Defined.

(** ** Dictionaries that give nothing *)

Lemma closed_stream_no_lines (ins : istream) :
  failbit ins = true → remaining_lines ins = [].
Proof.
  intros H. unfold remaining_lines, good. rewrite H.
  by rewrite orb_true_r.
Qed.

(** C6.  When the dictionary cannot be opened, [solveSpellingBee]
    still returns: it returns 0 and leaves the vector empty. *)
Theorem unopened_dictionary_no_results (L : gset ascii) (m : ascii)
    (fs : gmap string node) (filename : string) :
  fileExists fs filename = false →
  let out := solveSpellingBee L m (ifstream_open fs filename) [] in
  returned out = 0 ∧ result_after out = [].
Proof.
  intros Hfail out. apply negb_false_iff in Hfail.
  assert (result_after out = []) as Hres.
  { unfold out. rewrite solveSpellingBee_result.
    by rewrite closed_stream_no_lines. }
  split; [|done]. unfold out in *.
  by rewrite solveSpellingBee_returned, Hres.
Qed.

Lemma unopened_dictionary_no_results_witness :
  fileExists small_disk "dictionary.txt" = false ∧
  returned (solveSpellingBee small_hive "N"
              (ifstream_open small_disk "dictionary.txt") []) = 0 ∧
  result_after (solveSpellingBee small_hive "N"
                  (ifstream_open small_disk "dictionary.txt") []) = [].
Proof.
  split; [vm_compute; reflexivity |].
  apply (unopened_dictionary_no_results small_hive "N" small_disk
           "dictionary.txt").
  vm_compute. reflexivity.
Defined.

Lemma isValidWord_empty_hive (w : string) (m : ascii) :
  isValidWord w ∅ m = false.
Proof.
  unfold isValidWord. destruct (String.length w <? kMinWordLength) eqn:E;
    [done|].
  case_bool_decide; [done|]. destruct w as [|c s]; [done|]. simpl.
  unfold Cxx.count. by rewrite decide_False by apply not_elem_of_empty.
Qed.

(** C5.  With an empty hive no word of one character or more passes
    the membership loop, and the scan of any dictionary leaves the
    vector empty and returns 0. *)
Theorem empty_hive_no_results (m : ascii) (dictionary : istream) :
  let out := solveSpellingBee ∅ m dictionary [] in
  (∀ c s, all_in_letters (String c s) ∅ = false) ∧
  result_after out = [] ∧ returned out = 0.
Proof.
  intros out.
  assert (result_after out = []) as Hres.
  { unfold out. rewrite solveSpellingBee_result. simpl. unfold accepted.
    induction (remaining_lines dictionary) as [|l ls IH]; [done|].
    simpl. by rewrite isValidWord_empty_hive. }
  split; [|split; [done|]].
  - intros c s. simpl. unfold Cxx.count.
    by rewrite decide_False by apply not_elem_of_empty.
  - unfold out in *. by rewrite solveSpellingBee_returned, Hres.
Qed.

(** ** The example of the specification *)

(** C4, as the code behaves.  With the hive {A,B,L,N,O,T,Y} and the
    middle letter N, the scan of the five words in upper case gives
    BATON and BALLOON in that order; the scan of the five words in lower
    case, as the specification writes them, gives nothing, because the
    comparison of characters is case sensitive. *)
Theorem example_scan_upper_case :
  result_after
    (solveSpellingBee example_hive "N"
       (mk_istream false false (unlines example_words_upper)) []) =
    ["BATON"; "BALLOON"] ∧
  result_after
    (solveSpellingBee example_hive "N"
       (mk_istream false false (unlines example_words)) []) = [].
Proof. split; rewrite solveSpellingBee_result; vm_compute; reflexivity. Qed.

(** C4, as stated, fails: the scan of the lower-case words does not give
    "baton" and "balloon". *)
Lemma example_scan_lower_case_differs :
  result_after
    (solveSpellingBee example_hive "N"
       (mk_istream false false (unlines example_words)) []) ≠
    ["baton"; "balloon"].
Proof. rewrite solveSpellingBee_result. vm_compute. discriminate. Qed.

(** ** Writing the result and reading it back *)

Lemma put_lines_sent (text : string) (result : list string) :
  foldl put_line (mk_ofstream false text) result =
  mk_ofstream false (text +:+ unlines result).
Proof.
  revert text. induction result as [|word result IH]; intros text; simpl.
  - f_equal. induction text as [|c s IHs]; [done|].
    change (String c s = String c (s +:+ "")). by rewrite <- IHs.
  - unfold put_line at 2. simpl. rewrite IH. f_equal.
    by rewrite !string_app_assoc.
Qed.

Lemma readLines_result (source : istream) (line : string)
    (lines : list string) :
  (readLines source line lines).2 = lines ++ remaining_lines source.
Proof.
  funelim (readLines source line lines).
  - pose proof (getline_remaining source line) as G.
    rewrite Hread in G. simpl in G.
    destruct (remaining_lines source) as [|l ls].
    + by rewrite app_nil_r.
    + destruct G as [G _]. congruence.
  - pose proof (getline_remaining source line) as G.
    rewrite Hread in G. simpl in G.
    destruct (remaining_lines source) as [|l ls]; [congruence|].
    destruct G as (_ & -> & Hmore).
    match goal with IH : (readLines _ _ _).2 = _ |- _ => rewrite IH end.
    rewrite Hmore. by rewrite <- app_assoc.
Qed.

(** C8.  When the output file can be opened and no word holds a newline,
    the file that [writeResultToFile] leaves, read back line by line,
    gives the words of the vector in their order. *)
Theorem write_then_read_back (fs : gmap string node) (filename : string)
    (result : list string) :
  out_failbit (ofstream_open fs filename) = false →
  Forall (λ word, newline ∉ Cxx.chars word) result →
  (readLines
     (ifstream_open (writeResultToFile fs filename result) filename)
     "" []).2 = result.
Proof.
  intros Hopen Hwords. rewrite readLines_result. simpl.
  unfold writeResultToFile.
  assert (ofstream_open fs filename = mk_ofstream false "") as ->.
  { revert Hopen. unfold ofstream_open.
    by destruct (fs !! filename) as [[]|]. }
  rewrite put_lines_sent. unfold ofstream_close, ifstream_open. simpl.
  rewrite lookup_insert_eq. unfold remaining_lines. simpl.
  change ("" +:+ unlines result) with (unlines result).
  by apply lines_of_unlines.
Qed.

Lemma write_then_read_back_witness :
  (out_failbit (ofstream_open small_disk "found.txt") = false ∧
   Forall (λ word, newline ∉ Cxx.chars word) ["BATON"; "BALLOON"]) ∧
  (readLines
     (ifstream_open
        (writeResultToFile small_disk "found.txt" ["BATON"; "BALLOON"])
        "found.txt")
     "" []).2 = ["BATON"; "BALLOON"].
Proof.
  assert (Forall (λ word, newline ∉ Cxx.chars word) ["BATON"; "BALLOON"])
    as Hwords.
  { constructor; [by apply find_None_iff |].
    constructor; [by apply find_None_iff |]. constructor. }
  split; [split; [vm_compute; reflexivity | exact Hwords] |].
  apply (write_then_read_back small_disk "found.txt" ["BATON"; "BALLOON"]);
    [vm_compute; reflexivity | exact Hwords].
Defined.

(** ** The letters entered by the user *)

Lemma toupper_not_lower (c : ascii) : Cxx.islower (Cxx.toupper c) = false.
Proof. by destruct c as [[] [] [] [] [] [] [] []]. Qed.

(** The hive after the [for] loop has run over the first [n] indices. *)
Lemma letters_inserted (input : string) (letters : gset ascii) (n : nat)
    (c : ascii) :
  c ∈ foldl (insert_upper input) letters (seq 0 n) ↔
  c ∈ letters ∨ ∃ i, i < n ∧ c = Cxx.toupper (Cxx.at_index input i).
Proof.
  induction n as [|n IH].
  - simpl. split; [by left | intros [?|(i & ? & _)]; [done | lia]].
  - rewrite seq_S, foldl_app. simpl. unfold insert_upper at 1.
    rewrite elem_of_union, elem_of_singleton, IH. split.
    + intros [->|[?|(i & ? & ?)]]; [right; exists n | by left | right; exists i];
        split; [lia | done | lia | done].
    + intros [?|(i & Hi & ->)]; [by right; left|].
      destruct (decide (i = n)) as [->|]; [by left|].
      right; right. exists i. split; [lia | done].
Qed.

Lemma letters_after_no_lower (cin : istream) (c : ascii) :
  c ∈ letters_after (getLettersFromUser cin ∅) → Cxx.islower c = false.
Proof.
  unfold getLettersFromUser. destruct (getline cin "") as [cin' input].
  simpl. rewrite letters_inserted.
  intros [H|(i & _ & ->)]; [by apply not_elem_of_empty in H|].
  apply toupper_not_lower.
Qed.

(** C9.  When the line read is not empty, the middle character that
    [getLettersFromUser] returns is in the hive it has filled in. *)
Theorem middle_in_letters (cin : istream) (letters : gset ascii) :
  input_line (getLettersFromUser cin letters) ≠ "" →
  middle_returned (getLettersFromUser cin letters) ∈
    letters_after (getLettersFromUser cin letters).
Proof.
  unfold getLettersFromUser. destruct (getline cin "") as [cin' input].
  simpl. intros Hinput. apply letters_inserted. right. exists 0.
  split; [|done]. destruct input; [done | simpl; lia].
Qed.

Lemma middle_in_letters_witness :
  input_line (getLettersFromUser keyboard ∅) ≠ "" ∧
  middle_returned (getLettersFromUser keyboard ∅) ∈
    letters_after (getLettersFromUser keyboard ∅).
Proof.
  split; [vm_compute; discriminate |].
  apply (middle_in_letters keyboard ∅). vm_compute. discriminate.
Defined.

(** C3.  The hive that [getLettersFromUser] fills in, starting from the
    empty set as [main] does, holds no lower-case letter; so a word made
    of lower-case letters only is rejected by [isValidWord] whatever its
    length and letters, and unless it is empty it already fails the
    membership loop. *)
Theorem lower_case_words_rejected (cin : istream) (w : string) (m : ascii) :
  Forall (λ c, Cxx.islower c = true) (Cxx.chars w) →
  isValidWord w (letters_after (getLettersFromUser cin ∅)) m = false ∧
  (w ≠ "" →
   all_in_letters w (letters_after (getLettersFromUser cin ∅)) = false).
Proof.
  intros Hlower.
  assert (w ≠ "" →
          all_in_letters w (letters_after (getLettersFromUser cin ∅)) = false)
    as Hloop.
  { destruct w as [|c s]; [done|]. intros _. simpl.
    rewrite chars_cons in Hlower. apply Forall_cons in Hlower as [Hc _].
    unfold Cxx.count. rewrite decide_False; [done|].
    intros Hin%letters_after_no_lower. congruence. }
  split; [|done]. unfold isValidWord.
  destruct (String.length w <? kMinWordLength) eqn:Hlen; [done|].
  case_bool_decide; [done|]. apply Hloop. by intros ->.
Qed.

Lemma lower_case_words_rejected_witness :
  Forall (λ c, Cxx.islower c = true) (Cxx.chars "baton") ∧
  isValidWord "baton" (letters_after (getLettersFromUser keyboard ∅)) "N"
    = false ∧
  all_in_letters "baton" (letters_after (getLettersFromUser keyboard ∅))
    = false.
Proof.
  assert (Forall (λ c, Cxx.islower c = true) (Cxx.chars "baton")) as Hlower.
  { repeat constructor. }
  split; [exact Hlower |].
  destruct (lower_case_words_rejected keyboard "baton" "N" Hlower)
    as [Hword Hloop].
  split; [exact Hword | apply Hloop; discriminate].
Defined.

(** * Further properties of the code *)

(** ** The hive and the middle letter in isValidWord *)

(** X1.  A word accepted with a hive is accepted with every larger
    hive: adding letters never loses a word. *)
Theorem isValidWord_more_letters (w : string) (L L' : gset ascii)
    (m : ascii) :
  L ⊆ L' → isValidWord w L m = true → isValidWord w L' m = true.
Proof.
  intros Hsub. unfold isValidWord.
  destruct (String.length w <? kMinWordLength); [done|].
  case_bool_decide; [done|].
  rewrite !all_in_letters_iff. intros Hall ch Hch. by apply Hsub, Hall.
Qed.

Lemma isValidWord_more_letters_witness :
  small_hive ⊆ example_hive ∧
  isValidWord "NOON" small_hive "N" = true ∧
  isValidWord "NOON" example_hive "N" = true.
Proof.
  assert (small_hive ⊆ example_hive) as Hsub.
  { apply (bool_decide_unpack _). vm_compute. exact I. }
  split; [exact Hsub |]. split; [reflexivity |].
  apply (isValidWord_more_letters "NOON" small_hive example_hive "N" Hsub).
  reflexivity.
Defined.

Lemma isValidWord_middle_in_hive (w : string) (L : gset ascii) (m : ascii) :
  isValidWord w L m = true → m ∈ L.
Proof.
  unfold isValidWord.
  destruct (String.length w <? kMinWordLength); [done|].
  case_bool_decide as Hfind; [done|]. rewrite all_in_letters_iff.
  intros Hall. apply Hall. destruct (decide (m ∈ Cxx.chars w)) as [|Hn]; [done|].
  by apply find_None_iff in Hn.
Qed.

(** X2.  When the middle letter is not in the hive, which nothing in
    the program rules out, no word is accepted: the scan leaves the
    vector as it was and returns its length. *)
Theorem middle_outside_hive_no_results (L : gset ascii) (m : ascii)
    (dictionary : istream) (result : list string) :
  m ∉ L →
  result_after (solveSpellingBee L m dictionary result) = result ∧
  returned (solveSpellingBee L m dictionary result) = length result.
Proof.
  intros Hm.
  assert (result_after (solveSpellingBee L m dictionary result) = result)
    as Hres.
  { rewrite solveSpellingBee_result. unfold accepted.
    induction (remaining_lines dictionary) as [|l ls IH]; simpl.
    - by rewrite app_nil_r.
    - destruct (isValidWord l L m) eqn:E; [|done].
      by apply isValidWord_middle_in_hive in E. }
  split; [done|]. by rewrite solveSpellingBee_returned, Hres.
Qed.

Lemma middle_outside_hive_no_results_witness :
  ("X"%char ∉ small_hive) ∧
  result_after (solveSpellingBee small_hive "X" small_dictionary []) = [] ∧
  returned (solveSpellingBee small_hive "X" small_dictionary []) = 0.
Proof.
  assert ("X"%char ∉ small_hive) as Hm.
  { apply (bool_decide_unpack _). vm_compute. exact I. }
  split; [exact Hm |].
  exact (middle_outside_hive_no_results small_hive "X" small_dictionary []
           Hm).
Defined.

(** ** The stream after the scan *)



(** X4.  Dictionaries compose: the scan of a file made of the lines
    [lines1] followed by [lines2] leaves what the scan of [lines2]
    leaves when it starts from the vector filled by the scan of
    [lines1]. *)
Theorem scan_of_appended_dictionaries (L : gset ascii) (m : ascii)
    (lines1 lines2 result : list string) :
  Forall (λ line, newline ∉ Cxx.chars line) (lines1 ++ lines2) →
  result_after
    (solveSpellingBee L m
       (mk_istream false false (unlines (lines1 ++ lines2))) result) =
  result_after
    (solveSpellingBee L m (mk_istream false false (unlines lines2))
       (result_after
          (solveSpellingBee L m (mk_istream false false (unlines lines1))
             result))).
Proof.
  intros Hall. pose proof Hall as [H1 H2]%Forall_app.
  rewrite !solveSpellingBee_result. unfold remaining_lines. simpl.
  rewrite !lines_of_unlines by done. unfold accepted.
  by rewrite List.filter_app, app_assoc.
Qed.

Lemma scan_of_appended_dictionaries_witness :
  Forall (λ line, newline ∉ Cxx.chars line) (["NOON"; "ANT"] ++ ["ONION"]) ∧
  result_after
    (solveSpellingBee small_hive "N"
       (mk_istream false false (unlines (["NOON"; "ANT"] ++ ["ONION"])))
       []) =
  result_after
    (solveSpellingBee small_hive "N"
       (mk_istream false false (unlines ["ONION"]))
       (result_after
          (solveSpellingBee small_hive "N"
             (mk_istream false false (unlines ["NOON"; "ANT"])) []))).
Proof.
  assert (Forall (λ line, newline ∉ Cxx.chars line)
            (["NOON"; "ANT"] ++ ["ONION"])) as Hall
    by (repeat constructor; by apply find_None_iff).
  split; [exact Hall |].
  exact (scan_of_appended_dictionaries small_hive "N" ["NOON"; "ANT"]
           ["ONION"] [] Hall).
Defined.

(** ** The file that writeResultToFile leaves *)

Lemma ofstream_open_ok (fs : gmap string node) (filename : string) :
  out_failbit (ofstream_open fs filename) = false →
  ofstream_open fs filename = mk_ofstream false "".
Proof. unfold ofstream_open. by destruct (fs !! filename) as [[]|]. Qed.

Lemma writeResultToFile_opened (fs : gmap string node) (filename : string)
    (result : list string) :
  out_failbit (ofstream_open fs filename) = false →
  writeResultToFile fs filename result =
  <[filename := RegularFile (unlines result)]> fs.
Proof.
  intros Hopen. unfold writeResultToFile.
  rewrite (ofstream_open_ok _ _ Hopen), put_lines_sent.
  unfold ofstream_close. simpl. reflexivity.
Qed.

(** X5.  When the output file can be opened, [writeResultToFile] leaves
    under that name a regular file that holds the words, each followed
    by a newline, and nothing of what the file held before; the file
    then exists for [fileExists]. *)
Theorem writeResultToFile_contents (fs : gmap string node)
    (filename : string) (result : list string) :
  out_failbit (ofstream_open fs filename) = false →
  writeResultToFile fs filename result !! filename =
    Some (RegularFile (unlines result)) ∧
  fileExists (writeResultToFile fs filename result) filename = true.
Proof.
  intros Hopen. rewrite (writeResultToFile_opened _ _ _ Hopen).
  unfold fileExists, ifstream_open. by rewrite lookup_insert_eq.
Qed.

Lemma writeResultToFile_contents_witness :
  out_failbit (ofstream_open small_disk "words.txt") = false ∧
  writeResultToFile small_disk "words.txt" ["BATON"] !! "words.txt" =
    Some (RegularFile (unlines ["BATON"])) ∧
  fileExists (writeResultToFile small_disk "words.txt" ["BATON"])
    "words.txt" = true.
Proof.
  split; [vm_compute; reflexivity |].
  apply (writeResultToFile_contents small_disk "words.txt" ["BATON"]).
  vm_compute. reflexivity.
Defined.

(** X6.  [writeResultToFile] touches no other path than the one it is
    given. *)
Theorem writeResultToFile_other_paths (fs : gmap string node)
    (filename other : string) (result : list string) :
  other ≠ filename →
  writeResultToFile fs filename result !! other = fs !! other.
Proof.
  intros Hne. unfold writeResultToFile, ofstream_close.
  destruct (out_failbit _); [done|]. by rewrite lookup_insert_ne.
Qed.

Lemma writeResultToFile_other_paths_witness :
  "words.txt" ≠ "found.txt" ∧
  writeResultToFile small_disk "found.txt" ["BATON"] !! "words.txt" =
    small_disk !! "words.txt".
Proof.
  assert ("words.txt" ≠ "found.txt") as Hne by discriminate.
  split; [exact Hne |].
  exact (writeResultToFile_other_paths small_disk "found.txt" "words.txt"
           ["BATON"] Hne).
Defined.

(** X7.  When the output file cannot be opened, [writeResultToFile]
    changes nothing on the disk: the words are dropped and no error is
    raised or returned. *)
Theorem writeResultToFile_unopened (fs : gmap string node)
    (filename : string) (result : list string) :
  out_failbit (ofstream_open fs filename) = true →
  writeResultToFile fs filename result = fs.
Proof.
  intros Hopen. unfold writeResultToFile, ofstream_close.
  assert (out_failbit (foldl put_line (ofstream_open fs filename) result)
          = true) as ->; [|done].
  revert Hopen. generalize (ofstream_open fs filename).
  induction result as [|word result IH]; intros out Hout; [done|].
  simpl. apply IH. unfold put_line. by rewrite Hout.
Qed.

Lemma writeResultToFile_unopened_witness :
  out_failbit (ofstream_open locked_disk "found") = true ∧
  writeResultToFile locked_disk "found" ["BATON"] = locked_disk.
Proof.
  split; [vm_compute; reflexivity |].
  apply (writeResultToFile_unopened locked_disk "found" ["BATON"]).
  vm_compute. reflexivity.
Defined.

(** X8.  A second [writeResultToFile] under the same name replaces what
    the first one wrote: the file is truncated, not appended to. *)
Theorem writeResultToFile_twice (fs : gmap string node) (filename : string)
    (first second : list string) :
  out_failbit (ofstream_open fs filename) = false →
  writeResultToFile (writeResultToFile fs filename first) filename second =
  writeResultToFile fs filename second.
Proof.
  intros Hopen. rewrite (writeResultToFile_opened fs _ first Hopen).
  rewrite (writeResultToFile_opened fs _ second Hopen).
  rewrite writeResultToFile_opened.
  - apply insert_insert_eq.
  - unfold ofstream_open. by rewrite lookup_insert_eq.
Qed.

Lemma writeResultToFile_twice_witness :
  out_failbit (ofstream_open small_disk "found.txt") = false ∧
  writeResultToFile (writeResultToFile small_disk "found.txt" ["BATON"])
    "found.txt" ["NOON"] =
  writeResultToFile small_disk "found.txt" ["NOON"].
Proof.
  split; [vm_compute; reflexivity |].
  apply (writeResultToFile_twice small_disk "found.txt" ["BATON"] ["NOON"]).
  vm_compute. reflexivity.
Defined.

(** ** Saved results *)

Lemma lines_of_no_newline (text : string) :
  Forall (λ line, newline ∉ Cxx.chars line) (lines_of text).
Proof.
  induction text as [|c s IH]; simpl; [constructor|].
  case_decide as Hc.
  - constructor; [apply not_elem_of_nil | done].
  - destruct (lines_of s) as [|l ls].
    + constructor; [|done]. rewrite chars_cons.
      apply not_elem_of_cons. split; [congruence | apply not_elem_of_nil].
    + apply Forall_cons in IH as [Hl Hls]. constructor; [|done].
      rewrite chars_cons. apply not_elem_of_cons. split; [congruence | done].
Qed.

Lemma remaining_lines_no_newline (ins : istream) :
  Forall (λ line, newline ∉ Cxx.chars line) (remaining_lines ins).
Proof.
  unfold remaining_lines. destruct (good ins); [|constructor].
  apply lines_of_no_newline.
Qed.

Lemma accepted_no_newline (L : gset ascii) (m : ascii)
    (lines : list string) :
  Forall (λ line, newline ∉ Cxx.chars line) lines →
  Forall (λ line, newline ∉ Cxx.chars line) (accepted L m lines).
Proof.
  unfold accepted. induction 1 as [|l ls Hl _ IH]; simpl; [constructor|].
  destruct (isValidWord l L m); [by constructor | done].
Qed.

Lemma accepted_twice (L : gset ascii) (m : ascii) (lines : list string) :
  accepted L m (accepted L m lines) = accepted L m lines.
Proof.
  unfold accepted. induction lines as [|l ls IH]; [done|]. simpl.
  destruct (isValidWord l L m) eqn:E; [|done]. simpl. by rewrite E, IH.
Qed.

Lemma saved_lines (fs : gmap string node) (filename : string)
    (result : list string) :
  out_failbit (ofstream_open fs filename) = false →
  remaining_lines
    (ifstream_open (writeResultToFile fs filename result) filename) =
  lines_of (unlines result).
Proof.
  intros Hopen. rewrite (writeResultToFile_opened _ _ _ Hopen).
  unfold ifstream_open. by rewrite lookup_insert_eq.
Qed.

(** X9.  The words that a scan puts into an empty vector never hold a
    newline, so saving them and reading the file back line by line
    gives the same words in the same order, whatever the dictionary
    was. *)
Theorem scan_results_survive_saving (L : gset ascii) (m : ascii)
    (dictionary : istream) (fs : gmap string node) (filename : string) :
  out_failbit (ofstream_open fs filename) = false →
  let found := result_after (solveSpellingBee L m dictionary []) in
  Forall (λ word, newline ∉ Cxx.chars word) found ∧
  (readLines (ifstream_open (writeResultToFile fs filename found) filename)
     "" []).2 = found.
Proof.
  intros Hopen found.
  assert (Forall (λ word, newline ∉ Cxx.chars word) found) as Hfound.
  { unfold found. rewrite solveSpellingBee_result. simpl.
    apply accepted_no_newline, remaining_lines_no_newline. }
  split; [done|].
  rewrite readLines_result, (saved_lines _ _ _ Hopen). simpl.
  by apply lines_of_unlines.
Qed.

Lemma scan_results_survive_saving_witness :
  out_failbit (ofstream_open small_disk "found.txt") = false ∧
  (readLines
     (ifstream_open
        (writeResultToFile small_disk "found.txt"
           (result_after (solveSpellingBee small_hive "N" small_dictionary [])))
        "found.txt") "" []).2 =
  result_after (solveSpellingBee small_hive "N" small_dictionary []).
Proof.
  split; [vm_compute; reflexivity |].
  apply (scan_results_survive_saving small_hive "N" small_dictionary
           small_disk "found.txt").
  vm_compute. reflexivity.
Defined.

(** X10.  The saved file is a dictionary again: scanning it with the
    same hive and middle letter finds exactly the words that were
    saved. *)
Theorem scan_of_saved_results (L : gset ascii) (m : ascii)
    (dictionary : istream) (fs : gmap string node) (filename : string) :
  out_failbit (ofstream_open fs filename) = false →
  let found := result_after (solveSpellingBee L m dictionary []) in
  result_after
    (solveSpellingBee L m
       (ifstream_open (writeResultToFile fs filename found) filename) []) =
  found.
Proof.
  intros Hopen found. rewrite solveSpellingBee_result. simpl.
  rewrite (saved_lines _ _ _ Hopen). unfold found.
  rewrite solveSpellingBee_result. simpl.
  rewrite lines_of_unlines
    by apply accepted_no_newline, remaining_lines_no_newline.
  apply accepted_twice.
Qed.

Lemma scan_of_saved_results_witness :
  out_failbit (ofstream_open small_disk "found.txt") = false ∧
  result_after
    (solveSpellingBee small_hive "N"
       (ifstream_open
          (writeResultToFile small_disk "found.txt"
             (result_after
                (solveSpellingBee small_hive "N" small_dictionary [])))
          "found.txt") []) =
  result_after (solveSpellingBee small_hive "N" small_dictionary []).
Proof.
  split; [vm_compute; reflexivity |].
  apply (scan_of_saved_results small_hive "N" small_dictionary small_disk
           "found.txt").
  vm_compute. reflexivity.
Defined.

Lemma lines_of_nil (text : string) : lines_of text = [] → text = "".
Proof.
  destruct text as [|c s]; [done|]. simpl. case_decide; [done|].
  by destruct (lines_of s).
Qed.

Lemma lines_of_ended (word text : string) :
  lines_of (word +:+ String newline text) =
  lines_of (word +:+ endl) ++ lines_of text.
Proof.
  induction word as [|c s IH]; [reflexivity|].
  change (lines_of (String c (s +:+ String newline text)) =
          lines_of (String c (s +:+ endl)) ++ lines_of text).
  simpl. case_decide; [by rewrite IH|]. rewrite IH.
  destruct (lines_of (s +:+ endl)) as [|l ls] eqn:E; [|done].
  apply lines_of_nil in E. by destruct s.
Qed.

(** X11.  Without the condition on newlines the round trip splits:
    reading the written file back gives, word after word, the pieces of
    each word between its newlines. *)
Theorem read_back_splits_words (fs : gmap string node) (filename : string)
    (result : list string) :
  out_failbit (ofstream_open fs filename) = false →
  (readLines
     (ifstream_open (writeResultToFile fs filename result) filename)
     "" []).2 =
  flat_map (λ word, lines_of (word +:+ endl)) result.
Proof.
  intros Hopen. rewrite readLines_result, (saved_lines _ _ _ Hopen). simpl.
  induction result as [|word result IH]; [done|].
  simpl. by rewrite lines_of_ended, IH.
Qed.

Lemma read_back_splits_words_witness :
  out_failbit (ofstream_open small_disk "found.txt") = false ∧
  (readLines
     (ifstream_open
        (writeResultToFile small_disk "found.txt" [unlines ["NO"; "ON"]])
        "found.txt") "" []).2 = ["NO"; "ON"; ""].
Proof.
  split; [vm_compute; reflexivity |].
  rewrite (read_back_splits_words small_disk "found.txt"
             [unlines ["NO"; "ON"]]); [|vm_compute; reflexivity].
  vm_compute. reflexivity.
Defined.

(** ** What getLettersFromUser reads and returns *)

Lemma at_index_chars (s : string) (i : nat) :
  i < String.length s → Cxx.chars s !! i = Some (Cxx.at_index s i).
Proof.
  revert i. induction s as [|c s IH]; intros i Hi; simpl in Hi; [lia|].
  destruct i as [|i]; [done|]. rewrite chars_cons. simpl.
  rewrite IH by lia. unfold Cxx.at_index. simpl. done.
Qed.

Lemma length_chars (s : string) : length (Cxx.chars s) = String.length s.
Proof. induction s as [|c s IH]; [done|]. rewrite chars_cons. simpl. lia. Qed.

Lemma letters_of_line (cin : istream) (letters : gset ascii) :
  letters_after (getLettersFromUser cin letters) =
  letters ∪ list_to_set
    (Cxx.toupper <$> Cxx.chars (input_line (getLettersFromUser cin letters))).
Proof.
  unfold getLettersFromUser. destruct (getline cin "") as [cin' input].
  simpl. apply set_eq. intros c.
  rewrite letters_inserted, elem_of_union, elem_of_list_to_set,
    list_elem_of_fmap.
  split; (intros [?|H]; [by left | right]).
  - destruct H as (i & Hi & ->). exists (Cxx.at_index input i).
    split; [done|]. apply list_elem_of_lookup. exists i.
    by apply at_index_chars.
  - destruct H as (x & -> & [i Hi]%list_elem_of_lookup).
    assert (i < String.length input) as Hlt.
    { rewrite <- length_chars. by eapply lookup_lt_Some. }
    exists i. split; [done|]. rewrite at_index_chars in Hi by done.
    congruence.
Qed.

Lemma middle_of_line (cin : istream) (letters : gset ascii) :
  middle_returned (getLettersFromUser cin letters) =
  default Ascii.zero
    (head (Cxx.toupper <$>
             Cxx.chars (input_line (getLettersFromUser cin letters)))).
Proof.
  unfold getLettersFromUser. destruct (getline cin "") as [cin' input].
  simpl. by destruct input.
Qed.

(** X12.  The hive after [getLettersFromUser] is the hive before it
    together with the upper-case form of every character of the line
    read: spaces, digits and punctuation typed between the letters join
    the hive as they are, and a letter typed twice joins once. *)
Theorem getLettersFromUser_hive (cin : istream) (letters : gset ascii)
    (c : ascii) :
  c ∈ letters_after (getLettersFromUser cin letters) ↔
  c ∈ letters ∨
  ∃ typed, typed ∈ Cxx.chars (input_line (getLettersFromUser cin letters)) ∧
           c = Cxx.toupper typed.
Proof.
  rewrite letters_of_line, elem_of_union, elem_of_list_to_set,
    list_elem_of_fmap.
  split; (intros [?|(x & ? & ?)]; [by left | right; by exists x]).
Qed.

(** X13.  The case of the letters typed does not matter: two lines that
    agree once upper-cased give the same hive and the same middle
    letter. *)
Theorem getLettersFromUser_ignores_case (cin1 cin2 : istream)
    (letters : gset ascii) :
  Cxx.toupper <$> Cxx.chars (input_line (getLettersFromUser cin1 letters)) =
  Cxx.toupper <$> Cxx.chars (input_line (getLettersFromUser cin2 letters)) →
  letters_after (getLettersFromUser cin1 letters) =
    letters_after (getLettersFromUser cin2 letters) ∧
  middle_returned (getLettersFromUser cin1 letters) =
    middle_returned (getLettersFromUser cin2 letters).
Proof.
  intros Hsame. rewrite !letters_of_line, !middle_of_line.
  by rewrite Hsame.
Qed.

Lemma getLettersFromUser_ignores_case_witness :
  Cxx.toupper <$> Cxx.chars (input_line (getLettersFromUser keyboard ∅)) =
  Cxx.toupper <$>
    Cxx.chars (input_line (getLettersFromUser keyboard_shouting ∅)) ∧
  letters_after (getLettersFromUser keyboard ∅) =
    letters_after (getLettersFromUser keyboard_shouting ∅) ∧
  middle_returned (getLettersFromUser keyboard ∅) =
    middle_returned (getLettersFromUser keyboard_shouting ∅).
Proof.
  split; [vm_compute; reflexivity |].
  apply (getLettersFromUser_ignores_case keyboard keyboard_shouting ∅).
  vm_compute. reflexivity.
Defined.

Lemma getline_no_lines (ins : istream) :
  remaining_lines ins = [] →
  (getline ins "").2 = "" ∧ remaining_lines (getline ins "").1 = [].
Proof.
  intros Hnone. pose proof (getline_remaining ins "") as G.
  rewrite Hnone in G. split; [|by apply closed_stream_no_lines].
  revert Hnone. unfold remaining_lines, getline.
  destruct (good ins); [|done]. intros ->%lines_of_nil. done.
Qed.

(** X14.  [getLettersFromUser] takes exactly one line from [std::cin]:
    the line it works on is the first line left, or the empty line when
    none is left, and the lines after it stay for the next reader. *)
Theorem getLettersFromUser_reads_one_line (cin : istream)
    (letters : gset ascii) :
  input_line (getLettersFromUser cin letters) =
    default "" (head (remaining_lines cin)) ∧
  remaining_lines (cin_after (getLettersFromUser cin letters)) =
    tail (remaining_lines cin).
Proof.
  pose proof (getline_remaining cin "") as G.
  pose proof (getline_no_lines cin) as N.
  unfold getLettersFromUser. destruct (getline cin "") as [cin' input].
  simpl in *. destruct (remaining_lines cin) as [|l ls].
  - by destruct N.
  - by destruct G as (_ & -> & ->).
Qed.

(** X15.  When no line is left on [std::cin], or the line is empty,
    [getLettersFromUser] leaves the hive as it was and returns the null
    character, the value of [input[0]] for an empty [input]. *)
Theorem getLettersFromUser_empty_line (cin : istream)
    (letters : gset ascii) :
  default "" (head (remaining_lines cin)) = "" →
  letters_after (getLettersFromUser cin letters) = letters ∧
  middle_returned (getLettersFromUser cin letters) = Ascii.zero.
Proof.
  intros Hempty.
  assert (input_line (getLettersFromUser cin letters) = "") as Hline.
  { pose proof (getline_remaining cin "") as G.
    pose proof (getline_no_lines cin) as N.
    unfold getLettersFromUser. destruct (getline cin "") as [cin' input].
    simpl in *. destruct (remaining_lines cin) as [|l ls].
    - by destruct N.
    - destruct G as (_ & -> & _). done. }
  rewrite letters_of_line, middle_of_line, Hline. simpl.
  split; [|done]. apply set_eq. intros c.
  rewrite elem_of_union, elem_of_empty. tauto.
Qed.

Lemma getLettersFromUser_empty_line_witness :
  default "" (head (remaining_lines (mk_istream true false ""))) = "" ∧
  letters_after (getLettersFromUser (mk_istream true false "") small_hive) =
    small_hive ∧
  middle_returned (getLettersFromUser (mk_istream true false "") small_hive)
    = Ascii.zero.
Proof.
  split; [reflexivity |].
  apply (getLettersFromUser_empty_line (mk_istream true false "") small_hive).
  reflexivity.
Defined.

(** ** Reading the lines that were typed *)

Lemma extract_line_ended (line text : string) :
  newline ∉ Cxx.chars line →
  extract_line (line +:+ String newline text) = (line, Some text).
Proof.
  induction line as [|c s IH]; intros Hnl.
  - reflexivity.
  - rewrite chars_cons, not_elem_of_cons in Hnl. destruct Hnl as [Hc Hs].
    change (extract_line (String c (s +:+ String newline text)) =
            (String c s, Some text)).
    simpl. rewrite decide_False by done. by rewrite (IH Hs).
Qed.

Lemma extract_line_unended (line : string) :
  newline ∉ Cxx.chars line → extract_line line = (line, None).
Proof.
  induction line as [|c s IH]; intros Hnl; [done|].
  rewrite chars_cons, not_elem_of_cons in Hnl. destruct Hnl as [Hc Hs].
  simpl. rewrite decide_False by done. by rewrite (IH Hs).
Qed.

(** A line ended by a newline is read and the stream stays good. *)
Lemma getline_ended (line text str : string) :
  newline ∉ Cxx.chars line →
  getline (mk_istream false false (line +:+ String newline text)) str =
  (mk_istream false false text, line).
Proof.
  intros Hnl. unfold getline. simpl. by rewrite extract_line_ended.
Qed.

(** A last line without its newline is read and leaves [eofbit]. *)
Lemma getline_unended (line str : string) :
  newline ∉ Cxx.chars line → line ≠ "" →
  getline (mk_istream false false line) str = (mk_istream true false "", line).
Proof.
  intros Hnl Hne. unfold getline. simpl. rewrite extract_line_unended by done.
  by rewrite bool_decide_eq_false_2.
Qed.

(** A stream that is not good gives nothing and keeps the old line. *)
Lemma getline_not_good (ins : istream) (str : string) :
  good ins = false →
  getline ins str = (mk_istream (eofbit ins) true (unread ins), str).
Proof. intros Hbad. unfold getline. by rewrite Hbad. Qed.

(** ** The name that getDictionaryNameFromUser returns *)

Lemma reprompt_settles (fuel : nat) (fs : gmap string node) (cin : istream)
    (cout name : string) (cin' : istream) (cout' name' : string) :
  reprompt fuel fs cin cout name = Some (cin', cout', name') →
  name' = "" ∨ fileExists fs name' = true.
Proof.
  revert cin cout name. induction fuel as [|fuel IH]; intros cin cout name;
    simpl.
  - case_bool_decide as Hname; simpl.
    + destruct (fileExists fs name) eqn:E; simpl; [|done].
      intros [= _ _ <-]. by right.
    + intros [= _ _ <-]. left.
      by destruct (decide (name = "")).
  - case_bool_decide as Hname; simpl.
    + destruct (fileExists fs name) eqn:E; simpl.
      * intros [= _ _ <-]. by right.
      * destruct (getline cin name) as [c n]. apply IH.
    + intros [= _ _ <-]. left.
      by destruct (decide (name = "")).
Qed.

(** X16.  Whenever [getDictionaryNameFromUser] returns, the name it
    returns is not empty, and it is the default name or the name of a
    file that could be opened when it was asked for. *)
Theorem getDictionaryNameFromUser_name (fuel : nat) (fs : gmap string node)
    (cin : istream) (cout : string) (chosen : named) :
  getDictionaryNameFromUser fuel fs cin cout = Some chosen →
  name_returned chosen ≠ "" ∧
  (name_returned chosen = DEFAULT_DICT ∨
   fileExists fs (name_returned chosen) = true).
Proof.
  unfold getDictionaryNameFromUser.
  destruct (getline cin "") as [cin1 name1].
  destruct (reprompt fuel fs cin1 (cout +:+ dictionary_prompt) name1)
    as [[[cin2 cout2] name2]|] eqn:E; [|done].
  intros [= <-]. simpl. apply reprompt_settles in E.
  case_bool_decide as Hname.
  - split; [done|]. destruct E as [E|E]; [done | by right].
  - split; [done | by left].
Qed.

Lemma getDictionaryNameFromUser_name_witness :
  getDictionaryNameFromUser 1 small_disk
    (mk_istream false false (unlines ["nowhere.txt"; "words.txt"])) "" =
  Some (mk_named (mk_istream false false "")
          (dictionary_prompt +:+ retry_message "nowhere.txt") "words.txt") ∧
  "words.txt" ≠ "" ∧
  ("words.txt" = DEFAULT_DICT ∨ fileExists small_disk "words.txt" = true).
Proof.
  assert (getDictionaryNameFromUser 1 small_disk
            (mk_istream false false (unlines ["nowhere.txt"; "words.txt"])) ""
          = Some (mk_named (mk_istream false false "")
                    (dictionary_prompt +:+ retry_message "nowhere.txt")
                    "words.txt")) as Hrun by (vm_compute; reflexivity).
  split; [exact Hrun |].
  exact (getDictionaryNameFromUser_name 1 small_disk _ "" _ Hrun).
Defined.

Lemma reprompt_on_lines (fs : gmap string node) (lines : list string) :
  Forall (λ line, newline ∉ Cxx.chars line) lines →
  ∀ (fuel : nat) (cout name : string),
    length lines < fuel →
    ∃ cin' cout' name',
      reprompt fuel fs (mk_istream false false (unlines lines)) cout name =
        Some (cin', cout', name') ∧
      (if bool_decide (name' ≠ "") then name' else DEFAULT_DICT) =
        name_chosen fs (name :: lines).
Proof.
  induction 1 as [|line lines Hline _ IH]; intros fuel cout name Hfuel.
  - destruct fuel as [|fuel]; [simpl in Hfuel; lia|]. simpl.
    case_bool_decide as Hname; simpl.
    + rewrite bool_decide_eq_false_2 by done.
      destruct (fileExists fs name) eqn:E; simpl.
      * eexists _, _, _. split; [done|]. by rewrite bool_decide_eq_true_2.
      * destruct fuel; simpl; eexists _, _, _; split; reflexivity.
    + assert (name = "") as -> by (by destruct (decide (name = ""))).
      eexists _, _, _. split; reflexivity.
  - destruct fuel as [|fuel]; [simpl in Hfuel; lia|].
    simpl in Hfuel. cbn [reprompt].
    case_bool_decide as Hname; simpl.
    + rewrite (bool_decide_eq_false_2 (name = "")) by done.
      destruct (fileExists fs name) eqn:E; simpl.
      * eexists _, _, _. split; [done|]. by rewrite bool_decide_eq_true_2.
      * change (unlines (line :: lines))
          with (line +:+ String newline (unlines lines)).
        rewrite getline_ended by done. apply IH. lia.
    + assert (name = "") as -> by (by destruct (decide (name = ""))).
      eexists _, _, _. split; reflexivity.
Qed.

(** X17.  When the lines typed all end in a newline, the loop of
    [getDictionaryNameFromUser] ends within as many turns as there are
    lines, and the name returned is the first line that is empty or
    names a file that opens: that line itself, or the default name when
    it is empty or when every line was refused. *)
Theorem getDictionaryNameFromUser_chooses (fuel : nat)
    (fs : gmap string node) (lines : list string) (cout : string) :
  Forall (λ line, newline ∉ Cxx.chars line) lines →
  length lines ≤ fuel →
  name_returned <$>
    getDictionaryNameFromUser fuel fs
      (mk_istream false false (unlines lines)) cout =
  Some (name_chosen fs lines).
Proof.
  intros Hlines Hfuel. unfold getDictionaryNameFromUser.
  destruct Hlines as [|line lines Hline Hlines].
  - change (unlines []) with "". destruct fuel; reflexivity.
  - change (unlines (line :: lines))
      with (line +:+ String newline (unlines lines)).
    rewrite getline_ended by done. simpl in Hfuel.
    destruct (reprompt_on_lines fs lines Hlines fuel
                (cout +:+ dictionary_prompt) line)
      as (cin' & cout' & name' & -> & Hname); [lia|].
    simpl. by rewrite Hname.
Qed.

Lemma getDictionaryNameFromUser_chooses_witness :
  (Forall (λ line, newline ∉ Cxx.chars line)
     ["nowhere.txt"; "words.txt"; "y"] ∧
   length ["nowhere.txt"; "words.txt"; "y"] ≤ 3) ∧
  name_returned <$>
    getDictionaryNameFromUser 3 small_disk
      (mk_istream false false (unlines ["nowhere.txt"; "words.txt"; "y"]))
      "" =
  Some "words.txt".
Proof.
  assert (Forall (λ line, newline ∉ Cxx.chars line)
            ["nowhere.txt"; "words.txt"; "y"]) as Hlines
    by (repeat constructor; by apply find_None_iff).
  assert (length ["nowhere.txt"; "words.txt"; "y"] ≤ 3) as Hfuel
    by (simpl; lia).
  split; [by split |].
  rewrite (getDictionaryNameFromUser_chooses 3 small_disk
             ["nowhere.txt"; "words.txt"; "y"] "" Hlines Hfuel).
  vm_compute. reflexivity.
Defined.

(** ** The loop that does not end *)

Lemma reprompt_test_refused (fs : gmap string node) (name : string) :
  refused fs name →
  bool_decide (name ≠ "") && negb (fileExists fs name) = true.
Proof. intros [Hne Hno]. by rewrite bool_decide_eq_true_2, Hno. Qed.

Lemma reprompt_stuck (fuel : nat) (fs : gmap string node) (cin : istream)
    (cout name : string) :
  good cin = false → refused fs name →
  reprompt fuel fs cin cout name = None.
Proof.
  intros Hbad Href. revert cin cout Hbad.
  induction fuel as [|fuel IH]; intros cin cout Hbad; simpl;
    rewrite (reprompt_test_refused _ _ Href); [done|].
  rewrite getline_not_good by done. apply IH.
  unfold good. simpl. by rewrite orb_true_r.
Qed.

Lemma reprompt_refused_lines (fs : gmap string node) (lines : list string)
    (last : string) :
  Forall (λ line, (newline ∉ Cxx.chars line) ∧ refused fs line)
    (lines ++ [last]) →
  ∀ (fuel : nat) (cout name : string),
    refused fs name →
    reprompt fuel fs (mk_istream false false (unlines lines +:+ last))
      cout name = None.
Proof.
  induction lines as [|line lines IH]; intros Hall fuel cout name Href.
  - apply Forall_singleton in Hall as [Hnl [Hne Hno]].
    change (unlines [] +:+ last) with last.
    destruct fuel as [|fuel]; simpl;
      rewrite (reprompt_test_refused _ _ Href); [done|].
    rewrite getline_unended by done. by apply reprompt_stuck.
  - simpl in Hall. apply Forall_cons in Hall as [[Hnl Hline] Hall].
    destruct fuel as [|fuel]; simpl;
      rewrite (reprompt_test_refused _ _ Href); [done|].
    change (foldr (λ l text, l +:+ String newline text) "" lines)
      with (unlines lines).
    rewrite string_app_assoc.
    change (String newline (unlines lines) +:+ last)
      with (String newline (unlines lines +:+ last)).
    rewrite getline_ended by done. by apply IH.
Qed.

(** X18.  The loop of [getDictionaryNameFromUser] can run for ever:
    when every line typed is a name that does not open and the input
    ends in the middle of the last one, with no newline, the reads after
    it fail without touching the name, the test never changes, and the
    function has not returned after any number of turns. *)
Theorem getDictionaryNameFromUser_never_returns (fs : gmap string node)
    (lines : list string) (last cout : string) :
  Forall (λ line, (newline ∉ Cxx.chars line) ∧ refused fs line)
    (lines ++ [last]) →
  ∀ fuel : nat,
    getDictionaryNameFromUser fuel fs
      (mk_istream false false (unlines lines +:+ last)) cout = None.
Proof.
  intros Hall fuel. unfold getDictionaryNameFromUser.
  destruct lines as [|line lines].
  - apply Forall_singleton in Hall as [Hnl [Hne Hno]].
    change (unlines [] +:+ last) with last.
    rewrite getline_unended by done.
    by rewrite reprompt_stuck.
  - simpl in Hall. apply Forall_cons in Hall as [[Hnl Hline] Hall].
    change (unlines (line :: lines))
      with (line +:+ String newline (unlines lines)).
    rewrite string_app_assoc.
    change (String newline (unlines lines) +:+ last)
      with (String newline (unlines lines +:+ last)).
    rewrite getline_ended by done.
    by rewrite (reprompt_refused_lines fs lines last Hall).
Qed.

Lemma getDictionaryNameFromUser_never_returns_witness :
  Forall (λ line, (newline ∉ Cxx.chars line) ∧ refused small_disk line)
    (["nowhere.txt"] ++ ["words"]) ∧
  getDictionaryNameFromUser 1000 small_disk
    (mk_istream false false (unlines ["nowhere.txt"] +:+ "words")) "" = None.
Proof.
  assert (Forall (λ line, (newline ∉ Cxx.chars line) ∧ refused small_disk line)
            (["nowhere.txt"] ++ ["words"])) as Hall.
  { repeat constructor; try (by apply find_None_iff); discriminate. }
  split; [exact Hall |].
  exact (getDictionaryNameFromUser_never_returns small_disk ["nowhere.txt"]
           "words" "" Hall 1000).
Defined.

(** ** main from end to end *)

Lemma getDictionaryNameFromUser_first_line (fuel : nat)
    (fs : gmap string node) (name later cout : string) :
  newline ∉ Cxx.chars name → name ≠ "" → fileExists fs name = true →
  getDictionaryNameFromUser fuel fs
    (mk_istream false false (name +:+ String newline later)) cout =
  Some (mk_named (mk_istream false false later) (cout +:+ dictionary_prompt)
          name).
Proof.
  intros Hnl Hne Hex. unfold getDictionaryNameFromUser.
  rewrite getline_ended by done.
  assert (reprompt fuel fs (mk_istream false false later)
            (cout +:+ dictionary_prompt) name =
          Some (mk_istream false false later, cout +:+ dictionary_prompt,
                name)) as ->.
  { destruct fuel; simpl; by rewrite Hex, andb_false_r. }
  by rewrite bool_decide_eq_true_2.
Qed.

Lemma getLettersFromUser_typed (typed later : string) :
  newline ∉ Cxx.chars typed →
  getLettersFromUser
    (mk_istream false false (typed +:+ String newline later)) ∅ =
  mk_entered (mk_istream false false later) typed (hive_typed typed)
    (Cxx.toupper (Cxx.at_index typed 0)).
Proof.
  intros Hnl.
  pose proof (letters_of_line
                (mk_istream false false (typed +:+ String newline later)) ∅)
    as Hhive.
  revert Hhive. unfold getLettersFromUser.
  rewrite getline_ended by done. simpl. intros ->.
  f_equal. unfold hive_typed. apply set_eq. intros c.
  rewrite elem_of_union, elem_of_empty. tauto.
Qed.

Lemma scan_of_file (L : gset ascii) (m : ascii) (fs : gmap string node)
    (name text : string) :
  fs !! name = Some (RegularFile text) →
  result_after (solveSpellingBee L m (ifstream_open fs name) []) =
    accepted L m (lines_of text).
Proof.
  intros Hfile. rewrite solveSpellingBee_result. unfold ifstream_open.
  by rewrite Hfile.
Qed.

Lemma fileExists_regular (fs : gmap string node) (name text : string) :
  fs !! name = Some (RegularFile text) → fileExists fs name = true.
Proof. intros Hfile. unfold fileExists, ifstream_open. by rewrite Hfile. Qed.

(** The first part of [main] on a usable dictionary name and a letters
    line: rewrite the goal up to the first question. *)
Ltac main_front Hname Hne Hfile Htyped :=
  unfold main; simpl;
  rewrite (getDictionaryNameFromUser_first_line _ _ _ _ _ Hname Hne
             (fileExists_regular _ _ _ Hfile));
  simpl;
  rewrite (getLettersFromUser_typed _ _ Htyped); simpl.

(** X19.  A whole run that saves.  The user names a dictionary that
    opens, types the letters, answers the first question with a line
    that starts with y or Y, and names an output file that can be
    opened: [main] returns 0, the output file holds the words of the
    dictionary accepted for the upper-cased letters, one per line in
    dictionary order, no other path has changed, and the lines typed
    after the four that were read are still on [std::cin]. *)
Theorem main_saves_the_words (fuel : nat) (fs : gmap string node)
    (text name typed answer target : string) (rest : list string)
    (cout : string) :
  Forall (λ line, newline ∉ Cxx.chars line) [name; typed; answer; target] →
  name ≠ "" → fs !! name = Some (RegularFile text) →
  says_yes answer = true →
  out_failbit (ofstream_open fs target) = false →
  ∃ w' : world,
    main fuel
      (mk_world fs
         (mk_istream false false
            (unlines (name :: typed :: answer :: target :: rest))) cout) =
      Some (w', 0%Z) ∧
    disk_of w' =
      <[target := RegularFile (unlines (found_with typed (lines_of text)))]>
        fs ∧
    stdin_of w' = mk_istream false false (unlines rest).
Proof.
  intros Hlines Hne Hfile Hyes Hopen.
  apply Forall_cons in Hlines as [Hname Hlines].
  apply Forall_cons in Hlines as [Htyped Hlines].
  apply Forall_cons in Hlines as [Hanswer Hlines].
  apply Forall_cons in Hlines as [Htarget _].
  change (unlines (name :: typed :: answer :: target :: rest))
    with (name +:+ String newline (typed +:+ String newline
            (answer +:+ String newline (target +:+ String newline
               (unlines rest))))).
  main_front Hname Hne Hfile Htyped.
  rewrite (getline_ended answer) by done. rewrite Hyes.
  rewrite (getline_ended target) by done.
  eexists. split; [reflexivity|]. simpl. split; [|done].
  rewrite (writeResultToFile_opened _ _ _ Hopen).
  by rewrite (scan_of_file _ _ _ _ _ Hfile).
Qed.

Lemma main_saves_the_words_witness :
  (Forall (λ line, newline ∉ Cxx.chars line)
     ["words.txt"; "no"; "Yes"; "found.txt"] ∧
   "words.txt" ≠ "" ∧
   small_disk !! "words.txt" = Some (RegularFile (unlines ["NOON"; "ANT"])) ∧
   says_yes "Yes" = true ∧
   out_failbit (ofstream_open small_disk "found.txt") = false) ∧
  ∃ w' : world,
    main 0
      (mk_world small_disk
         (mk_istream false false
            (unlines ["words.txt"; "no"; "Yes"; "found.txt"; "more"])) "") =
      Some (w', 0%Z) ∧
    disk_of w' =
      <["found.txt" :=
          RegularFile
            (unlines (found_with "no" (lines_of (unlines ["NOON"; "ANT"]))))]>
        small_disk ∧
    stdin_of w' = mk_istream false false (unlines ["more"]).
Proof.
  assert (Forall (λ line, newline ∉ Cxx.chars line)
            ["words.txt"; "no"; "Yes"; "found.txt"]) as Hlines
    by (repeat constructor; by apply find_None_iff).
  assert ("words.txt" ≠ "") as Hne by discriminate.
  assert (small_disk !! "words.txt" =
          Some (RegularFile (unlines ["NOON"; "ANT"]))) as Hfile
    by (vm_compute; reflexivity).
  assert (says_yes "Yes" = true) as Hyes by reflexivity.
  assert (out_failbit (ofstream_open small_disk "found.txt") = false)
    as Hopen by (vm_compute; reflexivity).
  split; [done |].
  exact (main_saves_the_words 0 small_disk _ "words.txt" "no" "Yes"
           "found.txt" ["more"] "" Hlines Hne Hfile Hyes Hopen).
Defined.

Lemma print_lines_sent (cout : string) (result : list string) :
  foldl print_line cout result = cout +:+ unlines result.
Proof.
  revert cout. induction result as [|word result IH]; intros cout; simpl.
  - induction cout as [|c s IHs]; [done|].
    change (String c s = String c (s +:+ "")). by rewrite <- IHs.
  - rewrite IH. unfold print_line, endl. by rewrite !string_app_assoc.
Qed.

(** X20.  A whole run that prints.  With a dictionary that opens, a
    first answer that does not start with y or Y and a second one that
    does, [main] returns 0, leaves the disk as it was, and what it has
    written is the prompts, the number of words found in decimal, the
    two questions, the words found one per line in dictionary order,
    and the closing line. *)
Theorem main_prints_the_words (fuel : nat) (fs : gmap string node)
    (text name typed answer again : string) (rest : list string)
    (cout : string) :
  Forall (λ line, newline ∉ Cxx.chars line) [name; typed; answer; again] →
  name ≠ "" → fs !! name = Some (RegularFile text) →
  says_yes answer = false → says_yes again = true →
  ∃ w' : world,
    main fuel
      (mk_world fs
         (mk_istream false false
            (unlines (name :: typed :: answer :: again :: rest))) cout) =
      Some (w', 0%Z) ∧
    disk_of w' = fs ∧
    stdout_of w' =
      cout +:+ dictionary_prompt +:+ letters_prompt
      +:+ put_size_t (length (found_with typed (lines_of text)))
      +:+ found_message
      +:+ "Would you like to print them out? (y/n): "
      +:+ unlines (found_with typed (lines_of text))
      +:+ "Have a nice day!" +:+ endl.
Proof.
  intros Hlines Hne Hfile Hno Hyes.
  apply Forall_cons in Hlines as [Hname Hlines].
  apply Forall_cons in Hlines as [Htyped Hlines].
  apply Forall_cons in Hlines as [Hanswer Hlines].
  apply Forall_cons in Hlines as [Hagain _].
  change (unlines (name :: typed :: answer :: again :: rest))
    with (name +:+ String newline (typed +:+ String newline
            (answer +:+ String newline (again +:+ String newline
               (unlines rest))))).
  main_front Hname Hne Hfile Htyped.
  rewrite (getline_ended answer) by done. rewrite Hno.
  rewrite (getline_ended again) by done. rewrite Hyes.
  eexists. split; [reflexivity|]. simpl. split; [done|].
  rewrite print_lines_sent, solveSpellingBee_returned.
  rewrite (scan_of_file _ _ _ _ _ Hfile).
  by rewrite !string_app_assoc.
Qed.

Lemma main_prints_the_words_witness :
  (Forall (λ line, newline ∉ Cxx.chars line) ["words.txt"; "no"; "n"; "y"] ∧
   "words.txt" ≠ "" ∧
   small_disk !! "words.txt" = Some (RegularFile (unlines ["NOON"; "ANT"])) ∧
   says_yes "n" = false ∧ says_yes "y" = true) ∧
  ∃ w' : world,
    main 0
      (mk_world small_disk
         (mk_istream false false (unlines ["words.txt"; "no"; "n"; "y"]))
         "") = Some (w', 0%Z) ∧
    disk_of w' = small_disk ∧
    stdout_of w' =
      "" +:+ dictionary_prompt +:+ letters_prompt
      +:+ put_size_t
            (length (found_with "no" (lines_of (unlines ["NOON"; "ANT"]))))
      +:+ found_message
      +:+ "Would you like to print them out? (y/n): "
      +:+ unlines (found_with "no" (lines_of (unlines ["NOON"; "ANT"])))
      +:+ "Have a nice day!" +:+ endl.
Proof.
  assert (Forall (λ line, newline ∉ Cxx.chars line)
            ["words.txt"; "no"; "n"; "y"]) as Hlines
    by (repeat constructor; by apply find_None_iff).
  assert ("words.txt" ≠ "") as Hne by discriminate.
  assert (small_disk !! "words.txt" =
          Some (RegularFile (unlines ["NOON"; "ANT"]))) as Hfile
    by (vm_compute; reflexivity).
  assert (says_yes "n" = false) as Hno by reflexivity.
  assert (says_yes "y" = true) as Hyes by reflexivity.
  split; [done |].
  exact (main_prints_the_words 0 small_disk _ "words.txt" "no" "n" "y" []
           "" Hlines Hne Hfile Hno Hyes).
Defined.

(** X21.  Whenever [main] returns it returns 0, and it has changed at
    most one path of the disk; the dictionary read and every other file
    are left as they were unless the user names one of them as the
    output file. *)
Theorem main_changes_one_path_at_most (fuel : nat) (w w' : world)
    (code : Z) :
  main fuel w = Some (w', code) →
  code = 0%Z ∧
  ∃ target : string,
    ∀ path : string, path ≠ target → disk_of w' !! path = disk_of w !! path.
Proof.
  unfold main.
  destruct (getDictionaryNameFromUser fuel (disk_of w) (stdin_of w)
              (stdout_of w)) as [chosen|]; [|done].
  simpl.
  destruct (getline (cin_after (getLettersFromUser (cin_after_name chosen) ∅))
              "") as [cin1 line1].
  destruct (says_yes line1).
  - destruct (getline cin1 line1) as [cin2 line2].
    intros [= <- <-]. split; [done|]. exists line2. intros path Hpath.
    simpl. unfold writeResultToFile, ofstream_close.
    destruct (out_failbit _); [done|]. by rewrite lookup_insert_ne.
  - destruct (getline cin1 line1) as [cin2 line2].
    intros [= <- <-]. split; [done|]. by exists "".
Qed.

Lemma main_changes_one_path_at_most_witness :
  main 0
    (mk_world small_disk
       (mk_istream false false (unlines ["words.txt"; "no"; "y"; "found.txt"]))
       "") =
  Some (mk_world (<["found.txt" := RegularFile (unlines ["NOON"])]> small_disk)
          (mk_istream false false "")
          (dictionary_prompt +:+ letters_prompt +:+ "1" +:+ found_message
           +:+ "Enter the output filename: " +:+ "Have a nice day!"
           +:+ endl),
        0%Z) ∧
  0%Z = 0%Z ∧
  ∃ target : string,
    ∀ path : string,
      path ≠ target →
      <["found.txt" := RegularFile (unlines ["NOON"])]> small_disk !! path =
      small_disk !! path.
Proof.
  assert (main 0
            (mk_world small_disk
               (mk_istream false false
                  (unlines ["words.txt"; "no"; "y"; "found.txt"])) "") =
          Some (mk_world
                  (<["found.txt" := RegularFile (unlines ["NOON"])]>
                     small_disk)
                  (mk_istream false false "")
                  (dictionary_prompt +:+ letters_prompt +:+ "1"
                   +:+ found_message +:+ "Enter the output filename: "
                   +:+ "Have a nice day!" +:+ endl),
                0%Z)) as Hrun by (vm_compute; reflexivity).
  split; [exact Hrun |].
  exact (main_changes_one_path_at_most 0 _ _ _ Hrun).
Defined.

Lemma unlines_two_then (first second last : string) :
  unlines [first; second] +:+ last =
  first +:+ String newline (second +:+ String newline last).
Proof.
  change (unlines [first; second])
    with (first +:+ String newline (second +:+ String newline "")).
  rewrite string_app_assoc.
  change (String newline (second +:+ String newline "") +:+ last)
    with (String newline ((second +:+ String newline "") +:+ last)).
  by rewrite string_app_assoc.
Qed.

(** X22.  The line buffer of [main] is reused.  When the input ends
    right after an answer that starts with y or Y, with no newline, the
    read of the file name fails and leaves the answer in the buffer:
    the words are saved in a file named after the answer itself. *)
Theorem main_saves_under_the_answer (fuel : nat) (fs : gmap string node)
    (text name typed answer cout : string) :
  Forall (λ line, newline ∉ Cxx.chars line) [name; typed; answer] →
  name ≠ "" → fs !! name = Some (RegularFile text) →
  says_yes answer = true →
  out_failbit (ofstream_open fs answer) = false →
  ∃ w' : world,
    main fuel
      (mk_world fs
         (mk_istream false false (unlines [name; typed] +:+ answer)) cout) =
      Some (w', 0%Z) ∧
    disk_of w' =
      <[answer := RegularFile (unlines (found_with typed (lines_of text)))]>
        fs.
Proof.
  intros Hlines Hne Hfile Hyes Hopen.
  apply Forall_cons in Hlines as [Hname Hlines].
  apply Forall_cons in Hlines as [Htyped Hlines].
  apply Forall_cons in Hlines as [Hanswer _].
  assert (answer ≠ "") as Hanswer_ne by (by intros ->).
  rewrite (unlines_two_then name typed answer).
  main_front Hname Hne Hfile Htyped.
  rewrite (getline_unended answer) by done. rewrite Hyes.
  rewrite getline_not_good by done.
  eexists. split; [reflexivity|]. simpl.
  rewrite (writeResultToFile_opened _ _ _ Hopen).
  by rewrite (scan_of_file _ _ _ _ _ Hfile).
Qed.

Lemma main_saves_under_the_answer_witness :
  (Forall (λ line, newline ∉ Cxx.chars line) ["words.txt"; "no"; "yes"] ∧
   "words.txt" ≠ "" ∧
   small_disk !! "words.txt" = Some (RegularFile (unlines ["NOON"; "ANT"])) ∧
   says_yes "yes" = true ∧
   out_failbit (ofstream_open small_disk "yes") = false) ∧
  ∃ w' : world,
    main 0
      (mk_world small_disk
         (mk_istream false false (unlines ["words.txt"; "no"] +:+ "yes"))
         "") = Some (w', 0%Z) ∧
    disk_of w' =
      <["yes" :=
          RegularFile
            (unlines (found_with "no" (lines_of (unlines ["NOON"; "ANT"]))))]>
        small_disk.
Proof.
  assert (Forall (λ line, newline ∉ Cxx.chars line)
            ["words.txt"; "no"; "yes"]) as Hlines
    by (repeat constructor; by apply find_None_iff).
  assert ("words.txt" ≠ "") as Hne by discriminate.
  assert (small_disk !! "words.txt" =
          Some (RegularFile (unlines ["NOON"; "ANT"]))) as Hfile
    by (vm_compute; reflexivity).
  assert (says_yes "yes" = true) as Hyes by reflexivity.
  assert (out_failbit (ofstream_open small_disk "yes") = false)
    as Hopen by (vm_compute; reflexivity).
  split; [done |].
  exact (main_saves_under_the_answer 0 small_disk _ "words.txt" "no" "yes"
           "" Hlines Hne Hfile Hyes Hopen).
Defined.

Lemma accepted_empty_hive (m : ascii) (lines : list string) :
  accepted ∅ m lines = [].
Proof.
  unfold accepted. induction lines as [|l ls IH]; [done|].
  simpl. by rewrite isValidWord_empty_hive.
Qed.

Lemma getline_nothing (ins : istream) :
  remaining_lines ins = [] →
  ∃ ins', getline ins "" = (ins', "") ∧ remaining_lines ins' = [].
Proof.
  intros [Hline Hrest]%getline_no_lines.
  destruct (getline ins "") as [ins' line]. simpl in *. subst line.
  by exists ins'.
Qed.

(** X23.  With nothing to read on [std::cin] (closed, or at its end),
    [main] asks no question twice and ends by itself: the empty name
    stands for the default dictionary, the empty letters line gives an
    empty hive, so 0 words are found whatever the dictionary holds, both
    questions count as answered no, and the disk is left as it was. *)
Theorem main_without_input (fuel : nat) (fs : gmap string node)
    (cin : istream) (cout : string) :
  remaining_lines cin = [] →
  ∃ w' : world,
    main fuel (mk_world fs cin cout) = Some (w', 0%Z) ∧
    disk_of w' = fs ∧
    stdout_of w' =
      cout +:+ dictionary_prompt +:+ letters_prompt +:+ "0"
      +:+ found_message
      +:+ "Would you like to print them out? (y/n): "
      +:+ "Alright, goodbye!" +:+ endl +:+ "Have a nice day!" +:+ endl.
Proof.
  intros Hnone. unfold main, getDictionaryNameFromUser. simpl.
  destruct (getline_nothing cin Hnone) as (cin1 & -> & Hnone1).
  assert (reprompt fuel fs cin1 (cout +:+ dictionary_prompt) "" =
          Some (cin1, cout +:+ dictionary_prompt, "")) as ->
    by (by destruct fuel).
  simpl. unfold getLettersFromUser.
  destruct (getline_nothing cin1 Hnone1) as (cin2 & -> & Hnone2).
  simpl.
  destruct (getline_nothing cin2 Hnone2) as (cin3 & -> & Hnone3).
  simpl.
  destruct (getline_nothing cin3 Hnone3) as (cin4 & -> & _).
  simpl. eexists. split; [reflexivity|]. simpl. split; [done|].
  rewrite solveSpellingBee_returned, solveSpellingBee_result.
  rewrite accepted_empty_hive. simpl.
  change (put_size_t 0) with "0".
  by rewrite !string_app_assoc.
Qed.

Lemma main_without_input_witness :
  remaining_lines (mk_istream true false "") = [] ∧
  ∃ w' : world,
    main 0 (mk_world small_disk (mk_istream true false "") "") =
      Some (w', 0%Z) ∧
    disk_of w' = small_disk ∧
    stdout_of w' =
      "" +:+ dictionary_prompt +:+ letters_prompt +:+ "0"
      +:+ found_message
      +:+ "Would you like to print them out? (y/n): "
      +:+ "Alright, goodbye!" +:+ endl +:+ "Have a nice day!" +:+ endl.
Proof.
  split; [reflexivity |].
  apply (main_without_input 0 small_disk (mk_istream true false "") "").
  reflexivity.
Defined.
